(** * deploy/deactivate_site.py: a shallow embedding and its properties

    The script comments out the lines of three configuration files that
    mention a site and moves the site's directory into an archive.  This
    development embeds its functions as Rocq definitions over
    - Python [str] values as [string] (characters are code points below 256),
    - the file system as a finite map from paths to entries,
    - the wall clock as the sequence of values [datetime.now()] returns,
    and proves the properties the specification states about them. *)

From Stdlib Require Import Ascii String.
From stdpp Require Import base decidable option list gmap strings pretty.

(* ===================================================================== *)
(** * Part I: definitions                                                 *)
(* ===================================================================== *)

(** ** Python [str] methods used by the script *)

Module Str.

Definition LF : ascii := "010"%char.
Definition CR : ascii := "013"%char.

(** [str.isspace()] on one character.  Below code point 256 the
    characters Python treats as white space are TAB, LF, VT, FF, CR,
    FS, GS, RS, US, SPACE, NEL (0x85) and NBSP (0xA0). *)
Definition isspace (c : ascii) : bool :=
  let n := N_of_ascii c in
  ((9 <=? n) && (n <=? 13) || (28 <=? n) && (n <=? 32)
   || (n =? 133) || (n =? 160))%N.

(** [s.lstrip(...)]: drop the longest prefix of characters in the set. *)
Fixpoint lstrip_with (p : ascii → bool) (s : string) : string :=
  match s with
  | EmptyString => EmptyString
  | String c s' => if p c then lstrip_with p s' else s
  end.

(** [s.rstrip(...)]: drop the longest suffix of characters in the set. *)
Fixpoint rstrip_with (p : ascii → bool) (s : string) : string :=
  match s with
  | EmptyString => EmptyString
  | String c s' =>
      match rstrip_with p s' with
      | EmptyString => if p c then EmptyString else String c EmptyString
      | String d r => String c (String d r)
      end
  end.

(** Membership of a character in the [chars] argument of [rstrip]. *)
Fixpoint char_in (chars : string) (c : ascii) : bool :=
  match chars with
  | EmptyString => false
  | String d chars' => bool_decide (d = c) || char_in chars' c
  end.

(** [s.lstrip()], [s.rstrip()], [s.strip()] with no argument. *)
Definition lstrip : string → string := lstrip_with isspace.
Definition rstrip : string → string := rstrip_with isspace.
Definition strip (s : string) : string := lstrip (rstrip s).

(** [s.rstrip(chars)]. *)
Definition rstrip_chars (chars : string) : string → string :=
  rstrip_with (char_in chars).

(** [s.startswith(p)]. *)
Fixpoint startswith (s p : string) {struct p} : bool :=
  match p with
  | EmptyString => true
  | String a p' =>
      match s with
      | EmptyString => false
      | String b s' => bool_decide (a = b) && startswith s' p'
      end
  end.

(** [sub in s]: [sub] occurs in [s] as a contiguous substring. *)
Fixpoint contains (s sub : string) : bool :=
  startswith s sub ||
  match s with
  | EmptyString => false
  | String _ s' => contains s' sub
  end.

(** [sep.join(items)]. *)
Fixpoint join (sep : string) (items : list string) : string :=
  match items with
  | [] => ""
  | [x] => x
  | x :: rest => x +:+ sep +:+ join sep rest
  end.

(** Truthiness of a string: [if token]. *)
Definition truthy (s : string) : Prop := s ≠ "".

Global Instance truthy_dec s : Decision (truthy s).
Proof. unfold truthy. apply _. Defined.

End Str.

(** ** [collections.OrderedDict] with string keys

    Only construction from a sequence of pairs and iteration over the keys
    are used.  Assigning to a key that is present keeps the key's position
    and replaces its value; a new key goes to the end. *)

Module OrderedDict.

Definition t (V : Type) : Type := list (string * V).

Fixpoint setitem {V} (d : t V) (k : string) (v : V) : t V :=
  match d with
  | [] => [(k, v)]
  | (k', v') :: d' =>
      if bool_decide (k' = k) then (k', v) :: d'
      else (k', v') :: setitem d' k v
  end.

Definition update {V} (d : t V) (items : list (string * V)) : t V :=
  fold_left (λ acc kv, setitem acc kv.1 kv.2) items d.

Definition of_items {V} (items : list (string * V)) : t V := update [] items.

Definition keys {V} (d : t V) : list string := d.*1.

End OrderedDict.

(** ** Token normalisation *)

(** [normalize_tokens(site, extra_tokens)] *)
Definition normalize_tokens (site : string) (extra_tokens : list string)
  : list string :=
  let tokens := [site] ++ extra_tokens in
  filter Str.truthy
    (OrderedDict.keys
       (OrderedDict.of_items ((λ token, (Str.strip token, tt)) <$> tokens))).

(** ** Text files

    [path.open("r", encoding="utf-8")] opens the file in text mode with the
    default [newline=None]: on reading, the line endings CR LF and CR are
    translated to LF, and iterating over the handle yields the lines of the
    translated text, each with its terminating LF (the last line has none
    when the text does not end in one).  [path.open("w", ...)] writes LF as
    the platform's line separator, which is LF on the hosts the script
    is written for, so [writelines] stores the concatenation of its
    argument.  A file's content is the decoded text. *)

Module TextIO.

Fixpoint universal_newlines (s : string) : string :=
  match s with
  | EmptyString => EmptyString
  | String c s' =>
      if bool_decide (c = Str.CR) then
        String Str.LF
          match s' with
          | EmptyString => EmptyString
          | String c' s'' =>
              if bool_decide (c' = Str.LF) then universal_newlines s''
              else universal_newlines s'
          end
      else String c (universal_newlines s')
  end.

(** The lines of a text, split after each LF. *)
Fixpoint split_lines (s : string) : list string :=
  match s with
  | EmptyString => []
  | String c s' =>
      if bool_decide (c = Str.LF) then String c EmptyString :: split_lines s'
      else match split_lines s' with
           | [] => [String c EmptyString]
           | l :: ls => String c l :: ls
           end
  end.

(** [list(handle)] for a handle opened for reading. *)
Definition readlines (content : string) : list string :=
  split_lines (universal_newlines content).

(** The text [handle.writelines(lines)] leaves in a file opened with "w". *)
Definition writelines (lines : list string) : string :=
  foldr String.append EmptyString lines.

End TextIO.

(** [enumerate(items, start)] *)
Fixpoint enumerate {A} (items : list A) (start : Z) : list (Z * A) :=
  match items with
  | [] => []
  | x :: rest => (start, x) :: enumerate rest (start + 1)
  end.

(** ** Data model *)

Record Match := { line_number : Z; line_text : string }.

Record FileAnalysis := {
  path : string;
  active_matches : list Match;
  commented_matches : list Match;
}.

Global Instance Match_eq_dec : EqDecision Match.
Proof. solve_decision. Defined.

(** [CONFIG_PATHS]: label and path, in the order of the ordered dictionary. *)
Definition CONFIG_PATHS : list (string * string) :=
  [ ("Apache vhosts", "/etc/apache2/sites-available/esp_sites.conf");
    ("System crontab", "/etc/crontab");
    ("Exim config", "/etc/exim4/update-exim4.conf.conf") ].

Definition DEFAULT_SITES_ROOT : string := "/lu/sites".
Definition DEFAULT_ARCHIVE_DIR : string := "/lu/sites/archive".

(** The [argparse.Namespace] that [parse_args] returns. *)
Record Args := {
  site : string;
  tokens : list string;
  apply : bool;
  allow_missing : bool;
  sites_root : string;
  archive_dir : string;
}.

(** ** The pure cores of the two line loops *)

(** [line.lstrip().startswith("#")] *)
Definition comment_prefixed (line : string) : bool :=
  Str.startswith (Str.lstrip line) "#".

(** [any(token in line_text for token in tokens)] *)
Definition any_token_in (tokens : list string) (line_text : string) : bool :=
  existsb (λ token, Str.contains line_text token) tokens.

(** One iteration of the loop of [analyze_config_file]; the accumulator is
    the pair [(active_matches, commented_matches)]. *)
Definition analyze_step (tokens : list string)
    (acc : list Match * list Match) (item : Z * string)
  : list Match * list Match :=
  let '(line_number, line) := item in
  let line_text := Str.rstrip_chars (String Str.LF "") line in
  if negb (any_token_in tokens line_text) then acc
  else
    let match_ := {| line_number := line_number; line_text := line_text |} in
    if comment_prefixed line_text then (acc.1, acc.2 ++ [match_])
    else (acc.1 ++ [match_], acc.2).

Definition analyze_lines (tokens : list string) (lines : list string)
  : list Match * list Match :=
  fold_left (analyze_step tokens) (enumerate lines 1) ([], []).

(** [f"# deactivated {site} {stamp} {line}"] *)
Definition deactivated (site stamp line : string) : string :=
  "# deactivated " +:+ site +:+ " " +:+ stamp +:+ " " +:+ line.

(** One iteration of the loop of [comment_matching_lines]; the accumulator
    is [updated_lines]. *)
Definition comment_step (target_lines : gset Z) (site stamp : string)
    (updated_lines : list string) (item : Z * string) : list string :=
  let '(line_number, line) := item in
  if bool_decide (line_number ∈ target_lines) && negb (comment_prefixed line)
  then updated_lines ++ [deactivated site stamp line]
  else updated_lines ++ [line].

(** [{match.line_number for match in matches}] *)
Definition target_lines_of (matches : list Match) : gset Z :=
  list_to_set (line_number <$> matches).

Definition comment_lines (matches : list Match) (site stamp : string)
    (lines : list string) : list string :=
  fold_left (comment_step (target_lines_of matches) site stamp)
            (enumerate lines 1) [].

(** ** The environment: file system, clock and standard output *)

(** What a path names.  The content of a regular file is its text; the
    entries below a directory are entries of their own.

    The file system of the model grants every access and holds text that
    decodes: an operation fails only for what is at a path (nothing, a file
    where a directory is needed, a directory where a file is needed, the
    same file twice).  Permission, device and encoding errors are not part
    of it, so nothing here describes what the script leaves behind when a
    write fails half way.  An entry has one name: there are no symbolic
    links and no two path strings for the same entry. *)
Inductive entry :=
  | File (content : string)
  | Dir.

Global Instance entry_eq_dec : EqDecision entry.
Proof. solve_decision. Defined.

(** A value of [datetime.now()]. *)
Record datetime := {
  year : nat; month : nat; day : nat;
  hour : nat; minute : nat; second : nat;
}.

(** A decimal number, zero-padded to two digits ([%m], [%d], [%H], ...). *)
Definition pad2 (n : nat) : string :=
  if decide (n < 10) then "0" +:+ pretty n else pretty n.

(** A decimal number, zero-padded to four digits ([%Y]). *)
Definition pad4 (n : nat) : string :=
  if decide (n < 10) then "000" +:+ pretty n
  else if decide (n < 100) then "00" +:+ pretty n
  else if decide (n < 1000) then "0" +:+ pretty n
  else pretty n.

(** [now.strftime("%Y%m%d%H%M%S")] *)
Definition strftime_compact (now : datetime) : string :=
  pad4 (year now) +:+ pad2 (month now) +:+ pad2 (day now)
  +:+ pad2 (hour now) +:+ pad2 (minute now) +:+ pad2 (second now).

(** [now.strftime("%Y-%m-%d")] *)
Definition strftime_date (now : datetime) : string :=
  pad4 (year now) +:+ "-" +:+ pad2 (month now) +:+ "-" +:+ pad2 (day now).

(** The state a run threads: the file system, the readings the clock will
    give ([clock 0] is the next one) and the lines printed so far. *)
Record State := {
  fs : gmap string entry;
  clock : nat → datetime;
  stdout : list string;
}.

(** A computation returns a value or raises, and leaves a state either way. *)
Inductive result (A : Type) :=
  | Ok (a : A)
  | Raise (exn : string).
Global Arguments Ok {A} a.
Global Arguments Raise {A} exn.

Definition M (A : Type) : Type := State → result A * State.

Definition ret {A} (a : A) : M A := λ st, (Ok a, st).

Definition bind {A B} (m : M A) (k : A → M B) : M B :=
  λ st, match m st with
        | (Ok a, st') => k a st'
        | (Raise exn, st') => (Raise exn, st')
        end.

Definition raise {A} (exn : string) : M A := λ st, (Raise exn, st).

Declare Scope script_scope.
Delimit Scope script_scope with script.
Notation "x ← y ; z" := (bind y (λ x : _, z))
  (at level 20, y at level 100, z at level 200, only parsing) : script_scope.
Notation "' x ← y ; z" := (bind y (λ x : _, z))
  (at level 20, x pattern, y at level 100, z at level 200, only parsing)
  : script_scope.
Notation "x ;; z" := (bind x (λ _, z))
  (at level 100, z at level 200, only parsing, right associativity)
  : script_scope.
Local Open Scope script_scope.

(** [for item in items: acc = body(acc, item)] *)
Fixpoint for_each {A S} (items : list A) (body : S → A → M S) (acc : S) : M S :=
  match items with
  | [] => ret acc
  | item :: rest => acc' ← body acc item; for_each rest body acc'
  end.

(** [print(line)] *)
Definition print (line : string) : M unit :=
  λ st, (Ok tt, {| fs := fs st; clock := clock st; stdout := stdout st ++ [line] |}).

(** [datetime.now()] *)
Definition datetime_now : M datetime :=
  λ st, (Ok (clock st 0),
         {| fs := fs st; clock := λ n, clock st (S n); stdout := stdout st |}).

Definition get_fs : M (gmap string entry) := λ st, (Ok (fs st), st).

Definition put_fs (fs' : gmap string entry) : M unit :=
  λ st, (Ok tt, {| fs := fs'; clock := clock st; stdout := stdout st |}).

(** [path.exists()] *)
Definition path_exists (p : string) : M bool :=
  entries ← get_fs; ret (bool_decide (is_Some (entries !! p))).

(** [os.path.isdir(p)] *)
Definition isdir (p : string) : M bool :=
  entries ← get_fs; ret (bool_decide (entries !! p = Some Dir)).

(** The lines read from [path.open("r", encoding="utf-8")]. *)
Definition open_read_lines (p : string) : M (list string) :=
  entries ← get_fs;
  match entries !! p with
  | Some (File content) => ret (TextIO.readlines content)
  | Some Dir => raise "IsADirectoryError"
  | None => raise "FileNotFoundError"
  end.

(** [with path.open("w", encoding="utf-8") as handle:
       handle.writelines(lines)].  The file is truncated when it is opened
    and holds the lines when the handle is closed; in a file system that
    grants the access nothing can fail between the two, so the write is one
    step here. *)
Definition open_write_lines (p : string) (lines : list string) : M unit :=
  entries ← get_fs;
  match entries !! p with
  | Some Dir => raise "IsADirectoryError"
  | _ => put_fs (<[p := File (TextIO.writelines lines)]> entries)
  end.

(** The operations of [pathlib] and [os.path] on path strings.  They depend
    on the platform and, for [resolve], on the symbolic links and the
    working directory, none of which the script changes; the development
    is parametric in them. *)
Class PathOps := {
  (** [str(Path(s))] *)
  mkpath : string → string;
  (** [str(Path(p) / s)] *)
  joinpath : string → string → string;
  (** [str(Path(p).resolve())] *)
  resolve : string → string;
  (** [str(Path(p).parent)] *)
  parent : string → string;
  (** [[str(q) for q in Path(p).parents]], nearest first *)
  parents : string → list string;
  (** [os.path.basename(p)] *)
  basename : string → string;
  (** [str(Path(q).relative_to(p))] as [relative_to q p]: [Some "."] for
      [p] itself, the rest of the path for what is below [p], and [None]
      where [relative_to] raises [ValueError] *)
  relative_to : string → string → option string;
}.

(** ** The script's functions *)

Section Script.
Context `{PathOps}.

(** [shutil.copy2(src, dst)].  The file's metadata is not part of the
    model. *)
Definition copy2 (src dst : string) : M unit :=
  dst_is_dir ← isdir dst;
  let dst := if dst_is_dir then joinpath dst (basename src) else dst in
  entries ← get_fs;
  if bool_decide (is_Some (entries !! dst)) && bool_decide (resolve src = resolve dst)
  then raise "SameFileError"
  else
    match entries !! src with
    | None => raise "FileNotFoundError"
    | Some Dir => raise "IsADirectoryError"
    | Some (File content) =>
        match entries !! dst with
        | Some Dir => raise "IsADirectoryError"
        | _ => put_fs (<[dst := File content]> entries)
        end
    end.

(** The ancestors [os.mkdir] finds missing are made first, outermost first;
    [chain] lists them nearest first. *)
Fixpoint make_missing (chain : list string) : M unit :=
  match chain with
  | [] => ret tt
  | q :: rest =>
      entries ← get_fs;
      match entries !! q with
      | Some Dir => ret tt
      | Some (File _) => raise "NotADirectoryError"
      | None =>
          make_missing rest ;;
          entries ← get_fs;
          put_fs (<[q := Dir]> entries)
      end
  end.

(** [p.mkdir(parents=True, exist_ok=True)] *)
Definition mkdir_parents (p : string) : M unit :=
  entries ← get_fs;
  match entries !! p with
  | Some Dir => ret tt
  | Some (File _) => raise "FileExistsError"
  | None => make_missing (p :: parents p)
  end.

(** [q] is strictly below the directory [src]. *)
Definition strictly_below (src q : string) : Prop :=
  q ≠ src ∧ is_Some (relative_to q src).

Global Instance strictly_below_dec src q : Decision (strictly_below src q).
Proof. unfold strictly_below. apply _. Defined.

(** Where an entry at or below [src] is found once [src] is [dst]. *)
Definition relocate (src dst q : string) : string :=
  match relative_to q src with
  | Some r => joinpath dst r
  | None => q
  end.

(** The directory [src] has become [dst]: its entry and every entry below
    it have moved, the others have stayed. *)
Definition move_tree (src dst : string) (entries : gmap string entry)
  : gmap string entry :=
  let below := filter (λ item, strictly_below src item.1) entries in
  let others := filter (λ item, ¬ strictly_below src item.1) entries in
  <[dst := Dir]>
    (list_to_map ((λ item, (relocate src dst item.1, item.2))
                    <$> map_to_list below)
     ∪ delete src others).

(** [shutil.move(src, dst)].  Into an existing directory the source keeps
    its name, and a name already taken there is refused.  A regular file is
    renamed into the directory of the destination, which has to be there,
    over a file at the destination if there is one.  A directory is renamed
    with all that is below it; where [os.rename] fails, [shutil.move]
    refuses a destination at or below the source, and falls back to
    [copytree], which makes the missing ancestors of the destination and
    raises [FileExistsError] on a file at the destination. *)
Definition move (src dst : string) : M unit :=
  dst_is_dir ← isdir dst;
  if dst_is_dir && bool_decide (resolve src = resolve dst) then ret tt
  else
    let real_dst := if dst_is_dir then joinpath dst (basename src) else dst in
    entries ← get_fs;
    if dst_is_dir && bool_decide (is_Some (entries !! real_dst))
    then raise "shutil.Error"
    else
      match entries !! src with
      | None => raise "FileNotFoundError"
      | Some (File content) =>
          match entries !! parent real_dst with
          | None => raise "FileNotFoundError"
          | Some (File _) => raise "NotADirectoryError"
          | Some Dir =>
              put_fs (<[real_dst := File content]> (delete src entries))
          end
      | Some Dir =>
          if bool_decide (is_Some (relative_to dst src))
          then raise "shutil.Error"
          else
            match entries !! real_dst with
            | Some _ => raise "FileExistsError"
            | None =>
                make_missing (parents real_dst) ;;
                entries ← get_fs;
                put_fs (move_tree src real_dst entries)
            end
      end.

(** [analyze_config_file(path, tokens)] *)
Definition analyze_config_file (path : string) (tokens : list string)
  : M FileAnalysis :=
  lines ← open_read_lines path;
  let '(active_matches, commented_matches) := analyze_lines tokens lines in
  ret {| path := path;
          active_matches := active_matches;
          commented_matches := commented_matches |}.

(** [print_analysis(label, analysis)] *)
Definition print_analysis (label : string) (analysis : FileAnalysis) : M unit :=
  print (label +:+ ": " +:+ path analysis) ;;
  print ("  active matching lines: "
         +:+ pretty (length (active_matches analysis))) ;;
  print ("  already commented matching lines: "
         +:+ pretty (length (commented_matches analysis))) ;;
  for_each (active_matches analysis)
    (λ _ match_,
       print ("    L" +:+ pretty (line_number match_) +:+ ": "
              +:+ line_text match_))
    tt ;;
  print "".

(** [comment_matching_lines(path, matches, site, stamp)] *)
Definition comment_matching_lines (path : string) (matches : list Match)
    (site stamp : string) : M string :=
  match matches with
  | [] => ret path
  | _ :: _ =>
      lines ← open_read_lines path;
      let updated_lines := comment_lines matches site stamp lines in
      now ← datetime_now;
      let backup_path := mkpath (path +:+ ".bak." +:+ strftime_compact now) in
      copy2 path backup_path ;;
      open_write_lines path updated_lines ;;
      ret backup_path
  end.

(** [choose_archive_target(archive_dir, site)] *)
Definition choose_archive_target (archive_dir site : string) : M string :=
  let base_target := joinpath archive_dir site in
  base_exists ← path_exists base_target;
  if negb base_exists then ret base_target
  else
    now ← datetime_now;
    let suffix := strftime_compact now in
    ret (joinpath archive_dir (site +:+ "-" +:+ suffix)).

(** The body of the first loop of [main]; the accumulator is the pair
    [(config_analyses, blocking_errors)]. *)
Definition scan_config (args : Args) (tokens : list string)
    (acc : list (string * FileAnalysis) * list string)
    (item : string * string)
  : M (list (string * FileAnalysis) * list string) :=
  let '(config_analyses, blocking_errors) := acc in
  let '(label, path) := item in
  path_found ← path_exists path;
  if negb path_found
  then ret (config_analyses,
             blocking_errors ++ ["Missing config file: " +:+ path])
  else
    analysis ← analyze_config_file path tokens;
    let config_analyses := config_analyses ++ [(label, analysis)] in
    print_analysis label analysis ;;
    if apply args && negb (allow_missing args)
       && bool_decide (active_matches analysis = [])
    then ret (config_analyses,
               blocking_errors ++
                 ["No active matching lines found in " +:+ path +:+ ". "
                  +:+ "Use --allow-missing to skip this safety check."])
    else ret (config_analyses, blocking_errors).

(** The body of the second loop of [main]. *)
Definition apply_config (site stamp : string) (_ : unit)
    (item : string * FileAnalysis) : M unit :=
  let analysis := item.2 in
  backup_path ← comment_matching_lines (path analysis)
                   (active_matches analysis) site stamp;
  match active_matches analysis with
  | _ :: _ => print ("  Updated " +:+ path analysis
                     +:+ " (backup: " +:+ backup_path +:+ ")")
  | [] => print ("  No updates needed in " +:+ path analysis)
  end.

(** [main()], given the parsed arguments; the value is the exit status. *)
Definition main (args : Args) : M Z :=
  let mode := if apply args then "APPLY" else "DRY RUN" in
  print ("Mode: " +:+ mode) ;;
  let tokens := normalize_tokens (site args) (tokens args) in
  print ("Matching tokens: " +:+ Str.join ", " tokens) ;;
  print "" ;;
  '(config_analyses, blocking_errors) ←
     for_each CONFIG_PATHS (scan_config args tokens) ([], []);
  let sites_root := mkpath (sites_root args) in
  let archive_dir := mkpath (archive_dir args) in
  let source_site_dir := joinpath sites_root (site args) in
  archive_target ← choose_archive_target archive_dir (site args);
  print ("Site directory: " +:+ source_site_dir) ;;
  print ("Archive target: " +:+ archive_target) ;;
  print "" ;;
  source_exists ← path_exists source_site_dir;
  let blocking_errors :=
    if negb source_exists
    then blocking_errors ++
           ["Site directory does not exist: " +:+ source_site_dir]
    else if bool_decide (parent (resolve source_site_dir) = resolve archive_dir)
    then blocking_errors ++
           ["Site directory is already under archive: " +:+ source_site_dir]
    else blocking_errors in
  match blocking_errors with
  | _ :: _ =>
      print "Cannot continue:" ;;
      for_each blocking_errors (λ _ error, print ("  - " +:+ error)) tt ;;
      ret 2%Z
  | [] =>
      if negb (apply args) then
        print "Dry run complete. Re-run with --apply to make changes." ;;
        ret 0%Z
      else
        now ← datetime_now;
        let stamp := strftime_date now in
        print "Applying changes..." ;;
        for_each config_analyses (apply_config (site args) stamp) tt ;;
        mkdir_parents archive_dir ;;
        move source_site_dir archive_target ;;
        print ("  Moved " +:+ source_site_dir +:+ " -> " +:+ archive_target) ;;
        print "Done." ;;
        ret 0%Z
  end.

End Script.

(** The backup path of a call of [comment_matching_lines] made in state
    [st]. *)
Definition backup_path_of `{PathOps} (p : string) (st : State) : string :=
  mkpath (p +:+ ".bak." +:+ strftime_compact (clock st 0)).

(** ** A small POSIX instance of the path operations

    Enough of [pathlib] for the closed examples below: paths are taken as
    written, a relative segment is joined with a slash and an absolute one
    replaces the path, and nothing is a symbolic link. *)

Module Posix.

(** Split at the last slash. *)
Fixpoint rsplit_slash (s : string) : option (string * string) :=
  match s with
  | EmptyString => None
  | String c s' =>
      match rsplit_slash s' with
      | Some (a, b) => Some (String c a, b)
      | None => if bool_decide (c = "/"%char) then Some ("", s') else None
      end
  end.

Definition join (p s : string) : string :=
  if Str.startswith s "/" then s
  else if bool_decide (s = "") || bool_decide (s = ".") then p
  else if bool_decide (p = "/") then p +:+ s
  else p +:+ "/" +:+ s.

Definition dirname (p : string) : string :=
  match rsplit_slash p with
  | None => "."
  | Some (EmptyString, _) => "/"
  | Some (a, _) => a
  end.

Definition name (p : string) : string :=
  match rsplit_slash p with
  | None => p
  | Some (_, b) => b
  end.

Fixpoint ancestors (fuel : nat) (p : string) : list string :=
  match fuel with
  | O => []
  | S fuel' =>
      let q := dirname p in
      if bool_decide (q = p) then [] else q :: ancestors fuel' q
  end.

(** [s] without its prefix [p]. *)
Fixpoint strip_prefix (p s : string) : option string :=
  match p, s with
  | EmptyString, _ => Some s
  | String a p', String b s' =>
      if bool_decide (a = b) then strip_prefix p' s' else None
  | String _ _, EmptyString => None
  end.

Definition relative (q p : string) : option string :=
  if bool_decide (q = p) then Some "."
  else
    match strip_prefix (if bool_decide (p = "/") then p else p +:+ "/") q with
    | Some (String c r) => Some (String c r)
    | _ => None
    end.

Definition ops : PathOps := {|
  mkpath := id;
  joinpath := join;
  resolve := id;
  parent := dirname;
  parents := λ p, ancestors (String.length p) p;
  basename := name;
  relative_to := relative;
|}.

End Posix.

(** ** Sample inputs for the closed examples *)

Module Sample.

Definition nl : string := String Str.LF "".
Definition crlf : string := String Str.CR (String Str.LF "").

(** 3 November 2026, 09:05:07. *)
Definition t0 : datetime :=
  {| year := 2026; month := 11; day := 3; hour := 9; minute := 5; second := 7 |}.

Definition state_of (entries : gmap string entry) : State :=
  {| fs := entries; clock := λ _, t0; stdout := [] |}.

Definition vhosts : string := "/etc/apache2/sites-available/esp_sites.conf".
Definition crontab : string := "/etc/crontab".
Definition exim : string := "/etc/exim4/update-exim4.conf.conf".

Definition vhosts_text : string :=
  "Use VHost mit" +:+ nl +:+ "  # mit was here" +:+ nl +:+ "Use VHost other" +:+ nl.
Definition crontab_text : string :=
  "0 * * * * root /lu/sites/mit/run" +:+ nl.
Definition exim_text : string := "dc_other_hostnames='mit.learningu.org'".

(** The three configuration files and the site directory. *)
Definition entries0 : gmap string entry :=
  <[vhosts := File vhosts_text]>
    (<[crontab := File crontab_text]>
       (<[exim := File exim_text]>
          (<["/lu/sites/mit" := Dir]> (<["/lu/sites" := Dir]> ∅)))).

Definition st0 : State := state_of entries0.

(** A crontab with CR LF line endings. *)
Definition crontab_crlf : string := "MAILTO=root" +:+ crlf +:+ "0 * * * * mit" +:+ crlf.
Definition st_crlf : State := state_of (<[crontab := File crontab_crlf]> ∅).

(** An archive that already holds the site under both candidate names. *)
Definition entries_archived : gmap string entry :=
  <["/lu/sites/archive/mit" := Dir]>
    (<["/lu/sites/archive/mit-20261103090507" := Dir]>
       (<["/lu/sites/archive" := Dir]> entries0)).
Definition st_archived : State := state_of entries_archived.

(** A site identifier with a line break in it. *)
Definition site_two_lines : string := "a" +:+ nl +:+ "b".
Definition st_x : State := state_of (<[crontab := File ("x" +:+ nl)]> ∅).

Definition dry_run_args : Args :=
  {| site := "mit"; tokens := []; apply := false; allow_missing := false;
     sites_root := DEFAULT_SITES_ROOT; archive_dir := DEFAULT_ARCHIVE_DIR |}.

Definition apply_args : Args :=
  {| site := "mit"; tokens := []; apply := true; allow_missing := false;
     sites_root := DEFAULT_SITES_ROOT; archive_dir := DEFAULT_ARCHIVE_DIR |}.

(** A site identifier with a carriage return in it. *)
Definition site_with_cr : string := "a" +:+ String Str.CR "b".

Definition allow_missing_args : Args :=
  {| site := "mit"; tokens := []; apply := true; allow_missing := true;
     sites_root := DEFAULT_SITES_ROOT; archive_dir := DEFAULT_ARCHIVE_DIR |}.

(** As [entries0], but the crontab does not mention the site. *)
Definition st_quiet_crontab : State :=
  state_of (<[crontab := File ("MAILTO=root" +:+ nl)]> entries0).

(** As [entries0], without the site directory. *)
Definition st_no_site : State :=
  state_of (delete "/lu/sites/mit" entries0).

(** As [entries0], with the archive directory in place and a page in the
    site directory. *)
Definition index_html : string := "<h1>MIT</h1>" +:+ nl.
Definition st_ready : State :=
  state_of (<["/lu/sites/mit/index.html" := File index_html]>
              (<["/lu/sites/archive" := Dir]> entries0)).


(** A crontab whose only line is a comment with a CR LF line ending. *)
Definition comment_crlf : string := "# mit" +:+ crlf.
Definition st_comment_crlf : State :=
  state_of (<[crontab := File comment_crlf]> ∅).



End Sample.

(** ** Notions the specification uses to describe the functions *)

(** The keys of a sequence in order of first occurrence, as the
    specification words de-duplication: [seen] lists the keys already
    met. *)
Fixpoint first_occurrences (seen : list string) (l : list string) : list string :=
  match l with
  | [] => []
  | x :: rest =>
      if bool_decide (x ∈ seen) then first_occurrences seen rest
      else x :: first_occurrences (seen ++ [x]) rest
  end.

(** The three classes of a line, in the specification's words: a line
    matches when it contains some token; a matching line is commented when it
    begins with [#] after leading white space, and active otherwise. *)
Inductive line_class := ActiveMatch | CommentedMatch | NoMatch.

Global Instance line_class_eq_dec : EqDecision line_class.
Proof. solve_decision. Defined.

Definition classify (tokens : list string) (text : string) : line_class :=
  if any_token_in tokens text then
    if comment_prefixed text then CommentedMatch else ActiveMatch
  else NoMatch.

(** The text of a line as the scanner records it. *)
Definition text_of (line : string) : string :=
  Str.rstrip_chars (String Str.LF "") line.

(** The matches of one class among numbered lines. *)
Definition matches_of (tokens : list string) (c : line_class)
    (items : list (Z * string)) : list Match :=
  (λ item, {| line_number := item.1; line_text := text_of item.2 |})
    <$> filter (λ item, classify tokens (text_of item.2) = c) items.

(** The fixed marker [# deactivated <site> <stamp> ]. *)
Definition marker (site stamp : string) : string :=
  "# deactivated " +:+ site +:+ " " +:+ stamp +:+ " ".

(** What the mutator writes for one numbered line. *)
Definition updated_line (target_lines : gset Z) (site stamp : string)
    (item : Z * string) : string :=
  if bool_decide (item.1 ∈ target_lines) && negb (comment_prefixed item.2)
  then deactivated site stamp item.2
  else item.2.

(** Only white space: stripping it on the left leaves nothing. *)
Definition blank (ws : string) : Prop := Str.lstrip ws = "".

(** [prefixed_or_same l l']: [l'] is [l], possibly after a prefix that has
    no LF. *)
Definition prefixed_or_same (l l' : string) : Prop :=
  l' = l ∨ ∃ pre, Str.char_in pre Str.LF = false ∧ l' = pre +:+ l.

(** [same_files st st']: from [st] to [st'] no file system entry changed;
    lines may have been printed and the clock read. *)
Definition same_files (st st' : State) : Prop :=
  fs st' = fs st ∧ ∃ out, stdout st' = stdout st ++ out.

(** A string without line breaks. *)
Definition single_line (s : string) : Prop :=
  Str.char_in s Str.LF = false ∧ Str.char_in s Str.CR = false.

Global Instance single_line_dec s : Decision (single_line s).
Proof. unfold single_line. apply _. Defined.

(** The lines a text splits into: each ends at its only LF, except that the
    last may have none. *)
Definition complete_line (l : string) : Prop :=
  ∃ b, l = b +:+ String Str.LF "" ∧ Str.char_in b Str.LF = false.

Definition partial_line (l : string) : Prop :=
  l ≠ "" ∧ Str.char_in l Str.LF = false.

Fixpoint lines_wf (ls : list string) : Prop :=
  match ls with
  | [] => True
  | l :: ls' =>
      match ls' with
      | [] => complete_line l ∨ partial_line l
      | _ :: _ => complete_line l ∧ lines_wf ls'
      end
  end.

(** ** The preconditions of [main], in the specification's words *)

Section Preconditions.
Context `{PathOps}.

(** [source_site_dir] and [archive_dir] of a run. *)
Definition source_site_dir_of (args : Args) : string :=
  joinpath (mkpath (sites_root args)) (site args).

Definition archive_dir_of (args : Args) : string :=
  mkpath (archive_dir args).

(** The active matches the scanner finds in a text. *)
Definition active_in (args : Args) (content : string) : list Match :=
  matches_of (normalize_tokens (site args) (tokens args)) ActiveMatch
    (enumerate (TextIO.readlines content) 1).

(** (a) A registered configuration file does not exist. *)
Definition config_missing (entries : gmap string entry) : Prop :=
  ∃ label path, (label, path) ∈ CONFIG_PATHS ∧ entries !! path = None.

(** (b) In apply mode without allow-missing, a configuration file has no
    active match. *)
Definition no_active_match (args : Args) (entries : gmap string entry) : Prop :=
  apply args = true ∧ allow_missing args = false ∧
  ∃ label path content,
    (label, path) ∈ CONFIG_PATHS ∧ entries !! path = Some (File content) ∧
    active_in args content = [].

(** (c) The site directory does not exist. *)
Definition site_dir_missing (args : Args) (entries : gmap string entry) : Prop :=
  entries !! source_site_dir_of args = None.

(** (d) The site directory is already directly under the archive
    directory. *)
Definition site_dir_archived (args : Args) (entries : gmap string entry) : Prop :=
  is_Some (entries !! source_site_dir_of args) ∧
  parent (resolve (source_site_dir_of args)) = resolve (archive_dir_of args).

Definition blocked (args : Args) (entries : gmap string entry) : Prop :=
  config_missing entries ∨ no_active_match args entries ∨
  site_dir_missing args entries ∨ site_dir_archived args entries.

(** The scanner can read every registered configuration file that exists:
    none of the paths is a directory. *)
Definition configs_readable (entries : gmap string entry) : Prop :=
  Forall (λ item, entries !! item.2 ≠ Some Dir) CONFIG_PATHS.

(** The error messages of one configuration file. *)
Definition config_errors (args : Args) (entries : gmap string entry)
    (path : string) : list string :=
  match entries !! path with
  | None => ["Missing config file: " +:+ path]
  | Some (File content) =>
      if apply args && negb (allow_missing args)
         && bool_decide (active_in args content = [])
      then ["No active matching lines found in " +:+ path +:+ ". "
            +:+ "Use --allow-missing to skip this safety check."]
      else []
  | Some Dir => []
  end.

(** The error message about the site directory. *)
Definition site_errors (args : Args) (entries : gmap string entry) : list string :=
  match entries !! source_site_dir_of args with
  | None => ["Site directory does not exist: " +:+ source_site_dir_of args]
  | Some _ =>
      if bool_decide (parent (resolve (source_site_dir_of args))
                      = resolve (archive_dir_of args))
      then ["Site directory is already under archive: "
            +:+ source_site_dir_of args]
      else []
  end.

(** All the blocking errors of a run, in the order they are collected. *)
Definition blocking_errors_of (args : Args) (entries : gmap string entry)
  : list string :=
  concat (config_errors args entries <$> CONFIG_PATHS.*2)
  ++ site_errors args entries.

End Preconditions.

(** ** Notions used to describe the reporter and the apply phase *)

(** The lines [print_analysis] prints for one analysis. *)
Definition analysis_report (label : string) (analysis : FileAnalysis)
  : list string :=
  [ label +:+ ": " +:+ path analysis;
    "  active matching lines: " +:+ pretty (length (active_matches analysis));
    "  already commented matching lines: "
      +:+ pretty (length (commented_matches analysis)) ]
  ++ ((λ match_, "    L" +:+ pretty (line_number match_) +:+ ": "
                 +:+ line_text match_) <$> active_matches analysis)
  ++ [""].

(** The analysis of a text found at [p]. *)
Definition analysis_of (tokens : list string) (p content : string)
  : FileAnalysis :=
  {| path := p;
     active_matches :=
       matches_of tokens ActiveMatch (enumerate (TextIO.readlines content) 1);
     commented_matches :=
       matches_of tokens CommentedMatch (enumerate (TextIO.readlines content) 1) |}.

(** What the first loop of [main] prints for one registered file. *)
Definition config_report (tokens : list string) (entries : gmap string entry)
    (item : string * string) : list string :=
  match entries !! item.2 with
  | Some (File content) => analysis_report item.1 (analysis_of tokens item.2 content)
  | _ => []
  end.

(** The backup path of [p] for a clock reading [t]. *)
Definition bpath `{PathOps} (p : string) (t : datetime) : string :=
  mkpath (p +:+ ".bak." +:+ strftime_compact t).

(** What [comment_matching_lines] leaves in a file with text [content]. *)
Definition commented_text (matches : list Match) (site stamp content : string)
  : string :=
  match matches with
  | [] => content
  | _ :: _ =>
      TextIO.writelines
        (comment_lines matches site stamp (TextIO.readlines content))
  end.

(** ** Notions used to describe a whole run of [main] *)

Section RunNotions.
Context `{PathOps}.

(** The token list of a run. *)
Definition tokens_of (args : Args) : list string :=
  normalize_tokens (site args) (tokens args).

(** [config_analyses] after the first loop: the analyses of the registered
    files that exist, in registry order. *)
Definition scanned (tokens : list string) (entries : gmap string entry)
    (configs : list (string * string)) : list (string * FileAnalysis) :=
  omap (λ item,
          match entries !! item.2 with
          | Some (File content) => Some (item.1, analysis_of tokens item.2 content)
          | _ => None
          end) configs.

(** [<archive_dir>/<site>] of a run. *)
Definition base_target_of (args : Args) : string :=
  joinpath (archive_dir_of args) (site args).

(** [archive_target] of a run started in state [st]. *)
Definition archive_target_of (args : Args) (st : State) : string :=
  if bool_decide (is_Some (fs st !! base_target_of args))
  then joinpath (archive_dir_of args)
         (site args +:+ "-" +:+ strftime_compact (clock st 0))
  else base_target_of args.

(** The clock after [archive_target] has been chosen. *)
Definition clock_after_target (args : Args) (st : State) : nat → datetime :=
  if bool_decide (is_Some (fs st !! base_target_of args))
  then λ n, clock st (S n) else clock st.

(** Everything [main] prints before it looks at the blocking errors. *)
Definition header_report (args : Args) (st : State) : list string :=
  [ "Mode: " +:+ (if apply args then "APPLY" else "DRY RUN");
    "Matching tokens: " +:+ Str.join ", " (tokens_of args);
    "" ]
  ++ concat (config_report (tokens_of args) (fs st) <$> CONFIG_PATHS)
  ++ [ "Site directory: " +:+ source_site_dir_of args;
       "Archive target: " +:+ archive_target_of args st;
       "" ].

(** The state in which [main] looks at the blocking errors. *)
Definition state_after_report (args : Args) (st : State) : State :=
  {| fs := fs st;
     clock := clock_after_target args st;
     stdout := stdout st ++ header_report args st |}.

(** The last part of [main], from [stamp = ...] to [return 0]. *)
Definition apply_changes (args : Args)
    (config_analyses : list (string * FileAnalysis))
    (source_site_dir archive_dir archive_target : string) : M Z :=
  now ← datetime_now;
  let stamp := strftime_date now in
  print "Applying changes..." ;;
  for_each config_analyses (apply_config (site args) stamp) tt ;;
  mkdir_parents archive_dir ;;
  move source_site_dir archive_target ;;
  print ("  Moved " +:+ source_site_dir +:+ " -> " +:+ archive_target) ;;
  print "Done." ;;
  ret 0%Z.

End RunNotions.

(** What the apply run is proved for.  The registered files are there,
    each with an active match unless [--allow-missing] is given.  The site
    directory is a directory that is not directly under the archive
    directory; the archive directory is there and is the parent of
    [<archive_dir>/<site>], which is free and is not at or below the site
    directory.  The registered files and their backup paths, for every
    reading of the clock, are not at or below the site directory; the
    backup paths are free, differ from file to file and are not the archive
    target.  What is below the site directory goes to paths of its own that
    are free, are not at or below the site directory, and are neither the
    archive target nor a backup path. *)
Record apply_ready `{PathOps} (args : Args) (st : State) : Prop := {
  ready_apply : apply args = true;
  ready_configs :
    Forall (λ item, ∃ c, fs st !! item.2 = Some (File c)) CONFIG_PATHS;
  ready_active :
    allow_missing args = true ∨
    ∀ label p c, (label, p) ∈ CONFIG_PATHS → fs st !! p = Some (File c) →
      active_in args c ≠ [];
  ready_site : fs st !! source_site_dir_of args = Some Dir;
  ready_not_archived :
    parent (resolve (source_site_dir_of args)) ≠ resolve (archive_dir_of args);
  ready_archive : fs st !! archive_dir_of args = Some Dir;
  ready_archive_parent :
    head (parents (base_target_of args)) = Some (archive_dir_of args);
  ready_target_free : fs st !! base_target_of args = None;
  ready_target_outside :
    relative_to (base_target_of args) (source_site_dir_of args) = None;
  ready_configs_outside :
    ∀ p, p ∈ CONFIG_PATHS.*2 →
      relative_to p (source_site_dir_of args) = None;
  ready_backups_free :
    ∀ p n, p ∈ CONFIG_PATHS.*2 → fs st !! bpath p (clock st n) = None;
  ready_backups_distinct :
    ∀ p p' n n', p ∈ CONFIG_PATHS.*2 → p' ∈ CONFIG_PATHS.*2 → p ≠ p' →
      bpath p (clock st n) ≠ bpath p' (clock st n');
  ready_backups_outside :
    ∀ p n, p ∈ CONFIG_PATHS.*2 →
      bpath p (clock st n) ≠ base_target_of args ∧
      relative_to (bpath p (clock st n)) (source_site_dir_of args) = None;
  ready_tree_free :
    ∀ k e, fs st !! k = Some e → strictly_below (source_site_dir_of args) k →
      let k' := relocate (source_site_dir_of args) (base_target_of args) k in
      fs st !! k' = None ∧ k' ≠ base_target_of args ∧
      relative_to k' (source_site_dir_of args) = None;
  ready_tree_backups :
    ∀ n k e, fs st !! k = Some e → strictly_below (source_site_dir_of args) k →
      Forall (λ p, relocate (source_site_dir_of args) (base_target_of args) k
                   ≠ bpath p (clock st n)) CONFIG_PATHS.*2;
  ready_tree_distinct :
    ∀ k e, fs st !! k = Some e → strictly_below (source_site_dir_of args) k →
    ∀ k' e', fs st !! k' = Some e' → strictly_below (source_site_dir_of args) k' →
      relocate (source_site_dir_of args) (base_target_of args) k'
      = relocate (source_site_dir_of args) (base_target_of args) k →
      k' = k;
}.

(** ** Proof automation *)

(** Unfold the monad and the primitive operations of a run. *)
Ltac unfold_run :=
  cbv [bind ret raise get_fs put_fs print datetime_now path_exists isdir
       open_read_lines open_write_lines];
  cbn [fs clock stdout].

(* ===================================================================== *)
(** * Part II: properties                                                 *)
(* ===================================================================== *)

(** ** Stripping *)

Section Strip.
Variables p q : ascii → bool.

Lemma lstrip_with_idemp s :
  Str.lstrip_with p (Str.lstrip_with p s) = Str.lstrip_with p s.
Proof.
  induction s as [|c s IH]; simpl; [done|].
  destruct (p c) eqn:Hc; [done|]. simpl. by rewrite Hc.
Qed.

Lemma rstrip_with_idemp s :
  Str.rstrip_with p (Str.rstrip_with p s) = Str.rstrip_with p s.
Proof.
  induction s as [|c s IH]; simpl; [done|].
  destruct (Str.rstrip_with p s) as [|d r] eqn:Hr.
  - destruct (p c) eqn:Hc; simpl; [done|]. by rewrite Hc.
  - change (Str.rstrip_with p (String c (String d r))) with
      (match Str.rstrip_with p (String d r) with
       | EmptyString => if p c then EmptyString else String c EmptyString
       | String d' r' => String c (String d' r')
       end).
    by rewrite IH.
Qed.

(** Stripping on the left leaves a string stripped on the right so. *)
Lemma lstrip_with_rstripped s :
  Str.rstrip_with q s = s →
  Str.rstrip_with q (Str.lstrip_with p s) = Str.lstrip_with p s.
Proof.
  induction s as [|c s IH]; simpl; [done|].
  intros Hs. destruct (p c) eqn:Hc.
  - apply IH. destruct (Str.rstrip_with q s) as [|d r].
    + destruct (q c); congruence.
    + congruence.
  - simpl. exact Hs.
Qed.

Lemma lstrip_with_head c s :
  Str.lstrip_with p s = String c s → p c = false.
Proof.
  destruct s as [|d s]; simpl; [done|].
  destruct (p d) eqn:Hd; [|congruence].
  intros Heq. exfalso.
  assert (Hlen : ∀ t, String.length (Str.lstrip_with p t) ≤ String.length t).
  { clear. induction t as [|e t IH]; simpl; [lia|].
    destruct (p e); simpl; lia. }
  specialize (Hlen s). rewrite Heq in Hlen. simpl in Hlen. lia.
Qed.

End Strip.

Lemma strip_idemp s : Str.strip (Str.strip s) = Str.strip s.
Proof.
  unfold Str.strip, Str.lstrip, Str.rstrip.
  rewrite (lstrip_with_rstripped Str.isspace Str.isspace)
    by apply rstrip_with_idemp.
  apply lstrip_with_idemp.
Qed.

(** ** Ordered dictionaries *)

Lemma keys_setitem {V} (d : OrderedDict.t V) k v :
  OrderedDict.keys (OrderedDict.setitem d k v)
  = if bool_decide (k ∈ OrderedDict.keys d) then OrderedDict.keys d
    else OrderedDict.keys d ++ [k].
Proof.
  unfold OrderedDict.keys.
  induction d as [|[k' v'] d IH]; csimpl; [done|].
  destruct (bool_decide_reflect (k' = k)) as [->|Hne]; csimpl.
  - rewrite bool_decide_eq_true_2; [done|]. apply list_elem_of_here.
  - rewrite IH. destruct (bool_decide_reflect (k ∈ d.*1)) as [Hin|Hnin].
    + rewrite bool_decide_eq_true_2; [done|]. by apply list_elem_of_further.
    + rewrite bool_decide_eq_false_2; [done|].
      intros [?|?]%elem_of_cons; congruence.
Qed.

Lemma keys_update {V} (items : list (string * V)) (d : OrderedDict.t V) :
  OrderedDict.keys (OrderedDict.update d items)
  = OrderedDict.keys d ++ first_occurrences (OrderedDict.keys d) items.*1.
Proof.
  unfold OrderedDict.update.
  revert d. induction items as [|[k v] items IH]; intros d; csimpl.
  - by rewrite app_nil_r.
  - rewrite IH, keys_setitem.
    destruct (bool_decide (k ∈ OrderedDict.keys d)); [done|].
    by rewrite <- app_assoc.
Qed.

Lemma first_occurrences_elem seen l x :
  x ∈ first_occurrences seen l ↔ x ∈ l ∧ x ∉ seen.
Proof.
  revert seen. induction l as [|y l IH]; intros seen; simpl.
  - split; [by intros ?%elem_of_nil | by intros [?%elem_of_nil _]].
  - destruct (bool_decide_reflect (y ∈ seen)) as [Hy|Hy].
    + rewrite IH, elem_of_cons. split; [tauto|].
      intros [[->|?] ?]; [done|tauto].
    + rewrite !elem_of_cons, IH, elem_of_app, list_elem_of_singleton.
      destruct (decide (x = y)) as [->|]; tauto.
Qed.

Lemma first_occurrences_NoDup seen l : NoDup (first_occurrences seen l).
Proof.
  revert seen. induction l as [|y l IH]; intros seen; simpl.
  - constructor.
  - destruct (bool_decide (y ∈ seen)); [apply IH|].
    constructor; [|apply IH].
    rewrite first_occurrences_elem, elem_of_app, list_elem_of_singleton.
    tauto.
Qed.

Lemma first_occurrences_sublist seen l : sublist (first_occurrences seen l) l.
Proof.
  revert seen. induction l as [|y l IH]; intros seen; simpl.
  - constructor.
  - destruct (bool_decide (y ∈ seen)); [by apply sublist_cons|].
    by apply sublist_skip.
Qed.

(** A sequence without repetitions, none of them seen, is kept as it is. *)
Lemma first_occurrences_id seen l :
  NoDup l → (∀ x, x ∈ l → x ∉ seen) → first_occurrences seen l = l.
Proof.
  revert seen. induction l as [|y l IH]; intros seen Hnd Hseen; simpl; [done|].
  apply NoDup_cons in Hnd as [Hy Hnd].
  rewrite bool_decide_eq_false_2 by (apply Hseen, list_elem_of_here).
  f_equal. apply IH; [done|].
  intros x Hx [Hin| ->%list_elem_of_singleton]%elem_of_app; [|done].
  by apply (Hseen x); [apply list_elem_of_further|].
Qed.

(** ** Token normalisation *)

(** The function computes what the specification words: strip every token,
    keep the first occurrence of each, drop the empty ones. *)
Lemma normalize_tokens_unfold site extra :
  normalize_tokens site extra
  = filter Str.truthy (first_occurrences [] (Str.strip <$> site :: extra)).
Proof.
  unfold normalize_tokens, OrderedDict.of_items.
  rewrite keys_update. simpl. do 2 f_equal.
  rewrite <- list_fmap_compose. simpl. done.
Qed.

Lemma normalize_tokens_elem site extra t :
  t ∈ normalize_tokens site extra
  ↔ t ≠ "" ∧ ∃ x, x ∈ site :: extra ∧ Str.strip x = t.
Proof.
  rewrite normalize_tokens_unfold, list_elem_of_filter,
    first_occurrences_elem, list_elem_of_fmap.
  unfold Str.truthy. split.
  - intros (? & (x & -> & ?) & _). eauto.
  - intros (? & x & ? & <-). split; [done|]. split; [eauto|].
    by intros ?%elem_of_nil.
Qed.

Lemma normalize_tokens_NoDup site extra : NoDup (normalize_tokens site extra).
Proof.
  rewrite normalize_tokens_unfold.
  apply NoDup_filter, first_occurrences_NoDup.
Qed.

Lemma normalize_tokens_stripped site extra t :
  t ∈ normalize_tokens site extra → Str.strip t = t.
Proof.
  intros (_ & x & _ & <-)%normalize_tokens_elem. apply strip_idemp.
Qed.

Lemma normalize_tokens_head site extra :
  Str.strip site ≠ "" → head (normalize_tokens site extra) = Some (Str.strip site).
Proof.
  intros Hsite. rewrite normalize_tokens_unfold. simpl.
  by rewrite filter_cons_True.
Qed.

Lemma normalize_tokens_fixed site extra t ts :
  normalize_tokens site extra = t :: ts → normalize_tokens t ts = t :: ts.
Proof.
  intros Hr. rewrite normalize_tokens_unfold.
  assert (Hstrip : Str.strip <$> t :: ts = t :: ts).
  { rewrite <- (list_fmap_id (t :: ts)) at 2.
    apply list_fmap_ext. intros i x Hx. simpl.
    apply (normalize_tokens_stripped site extra).
    rewrite Hr. by apply list_elem_of_lookup_2 in Hx. }
  rewrite Hstrip, first_occurrences_id.
  - rewrite <- Hr. rewrite normalize_tokens_unfold.
    by rewrite list_filter_filter_l.
  - rewrite <- Hr. apply normalize_tokens_NoDup.
  - intros x _. by intros ?%elem_of_nil.
Qed.

(** C4, as amended.  The token list never contains the empty string; it is
    non-empty, and contains the stripped site name, whenever the site
    identifier is not empty or made of white space only. *)
Theorem normalize_tokens_no_empty_token site extra :
  ("" ∉ normalize_tokens site extra) ∧
  (Str.strip site ≠ "" →
   normalize_tokens site extra ≠ [] ∧
   Str.strip site ∈ normalize_tokens site extra).
Proof.
  split.
  - by intros [? _]%normalize_tokens_elem.
  - intros Hsite.
    assert (Hin : Str.strip site ∈ normalize_tokens site extra).
    { apply normalize_tokens_elem. split; [done|].
      exists site. split; [apply list_elem_of_here | done]. }
    split; [|done]. intros Hnil. rewrite Hnil in Hin.
    by apply elem_of_nil in Hin.
Qed.

Lemma normalize_tokens_no_empty_token_witness :
  normalize_tokens "mit" [" esp "; ""] ≠ [] ∧
  ("mit" ∈ normalize_tokens "mit" [" esp "; ""]).
Proof.
  apply (proj2 (normalize_tokens_no_empty_token "mit" [" esp "; ""])).
  vm_compute. discriminate.
Defined.

(** C4 as stated fails: a blank site identifier with blank extra tokens
    yields the empty token list. *)
Lemma normalize_tokens_blank_site_empty :
  normalize_tokens " " [""] = [] ∧
  ¬ (normalize_tokens " " [""] ≠ [] ∧ ("" ∉ normalize_tokens " " [""])).
Proof.
  assert (Hnil : normalize_tokens " " [""] = []) by (vm_compute; reflexivity).
  split; [exact Hnil|]. intros [Hne _]. by apply Hne.
Qed.

(** C7, as amended.  [normalize_tokens] strips every token, keeps the first
    occurrence of each in the order given and drops the empty ones; the
    stripped site identifier comes first whenever it is not empty; and
    normalising the result again (its head as the site, its tail as the
    extra tokens) gives the result back. *)
Theorem normalize_tokens_dedup_ordered_idempotent site extra :
  let r := normalize_tokens site extra in
  r = filter Str.truthy (first_occurrences [] (Str.strip <$> site :: extra)) ∧
  NoDup r ∧
  sublist r (Str.strip <$> site :: extra) ∧
  (∀ t, t ∈ r ↔ t ≠ "" ∧ ∃ x, x ∈ site :: extra ∧ Str.strip x = t) ∧
  (∀ t, t ∈ r → Str.strip t = t) ∧
  (Str.strip site ≠ "" → head r = Some (Str.strip site)) ∧
  (∀ t ts, r = t :: ts → normalize_tokens t ts = r).
Proof.
  intros r. subst r. split_and!.
  - apply normalize_tokens_unfold.
  - apply normalize_tokens_NoDup.
  - rewrite normalize_tokens_unfold.
    etrans; [apply sublist_filter | apply first_occurrences_sublist].
  - apply normalize_tokens_elem.
  - apply normalize_tokens_stripped.
  - apply normalize_tokens_head.
  - intros t ts Hr. rewrite Hr. by apply (normalize_tokens_fixed site extra).
Qed.

Lemma normalize_tokens_dedup_ordered_idempotent_witness :
  head (normalize_tokens " mit" ["esp"; "mit"; " "; "esp "]) = Some "mit" ∧
  normalize_tokens "mit" ["esp"] = normalize_tokens " mit" ["esp"; "mit"; " "; "esp "].
Proof.
  pose proof (normalize_tokens_dedup_ordered_idempotent
                " mit" ["esp"; "mit"; " "; "esp "]) as Hspec.
  destruct Hspec as (_ & _ & _ & _ & _ & Hhead & Hfix).
  split.
  - apply Hhead. vm_compute. discriminate.
  - apply Hfix. vm_compute. reflexivity.
Defined.

(** C7 as stated fails: a blank site identifier is dropped, so the first
    token is not the site identifier. *)
Lemma normalize_tokens_blank_site_not_first :
  normalize_tokens "  " ["a"] = ["a"] ∧
  head (normalize_tokens "  " ["a"]) ≠ Some "  " ∧
  head (normalize_tokens "  " ["a"]) ≠ Some (Str.strip "  ").
Proof. vm_compute. repeat split; discriminate. Qed.

(** ** Numbered lines *)

Lemma enumerate_lookup {A} (l : list A) (start : Z) (i : nat) :
  enumerate l start !! i = (λ x, ((start + Z.of_nat i)%Z, x)) <$> l !! i.
Proof.
  revert start i. induction l as [|x l IH]; intros start i; [done|].
  destruct i as [|i]; simpl.
  - by rewrite Z.add_0_r.
  - rewrite IH. destruct (l !! i); simpl; [|done].
    do 2 f_equal. lia.
Qed.

Lemma enumerate_elem {A} (l : list A) (start n : Z) (x : A) :
  (n, x) ∈ enumerate l start
  ↔ ∃ i : nat, n = (start + Z.of_nat i)%Z ∧ l !! i = Some x.
Proof.
  rewrite list_elem_of_lookup. split.
  - intros [i Hi]. rewrite enumerate_lookup in Hi.
    destruct (l !! i) as [y|] eqn:Hy; simplify_eq/=. eauto.
  - intros (i & -> & Hi). exists i. by rewrite enumerate_lookup, Hi.
Qed.

Lemma enumerate_length {A} (l : list A) (start : Z) :
  length (enumerate l start) = length l.
Proof.
  revert start. induction l as [|x l IH]; intros start; simpl; [done|].
  by rewrite IH.
Qed.


(** ** The scanner's loop *)

Lemma analyze_step_classify tokens acc n line :
  analyze_step tokens acc (n, line)
  = match classify tokens (text_of line) with
    | ActiveMatch =>
        (acc.1 ++ [{| line_number := n; line_text := text_of line |}], acc.2)
    | CommentedMatch =>
        (acc.1, acc.2 ++ [{| line_number := n; line_text := text_of line |}])
    | NoMatch => acc
    end.
Proof.
  unfold analyze_step, classify, text_of.
  destruct (any_token_in _ _); simpl; [|done].
  by destruct (comment_prefixed _).
Qed.

Lemma matches_of_cons tokens c n line items :
  matches_of tokens c ((n, line) :: items)
  = (if decide (classify tokens (text_of line) = c)
     then [{| line_number := n; line_text := text_of line |}] else [])
    ++ matches_of tokens c items.
Proof.
  unfold matches_of. rewrite filter_cons. simpl.
  by destruct (decide (classify tokens (text_of line) = c)).
Qed.

Lemma analyze_fold tokens items acc :
  fold_left (analyze_step tokens) items acc
  = (acc.1 ++ matches_of tokens ActiveMatch items,
     acc.2 ++ matches_of tokens CommentedMatch items).
Proof.
  revert acc. induction items as [|[n line] items IH]; intros [act com].
  - simpl. unfold matches_of. simpl. by rewrite !app_nil_r.
  - cbn [fold_left]. rewrite IH, analyze_step_classify, !matches_of_cons.
    destruct (classify tokens (text_of line)); simpl;
      by rewrite <- ?app_assoc.
Qed.

Lemma analyze_lines_classes tokens lines :
  analyze_lines tokens lines
  = (matches_of tokens ActiveMatch (enumerate lines 1),
     matches_of tokens CommentedMatch (enumerate lines 1)).
Proof. unfold analyze_lines. by rewrite analyze_fold. Qed.

Lemma matches_of_elem tokens c items m :
  m ∈ matches_of tokens c items
  ↔ ∃ line, (line_number m, line) ∈ items ∧ line_text m = text_of line
            ∧ classify tokens (text_of line) = c.
Proof.
  unfold matches_of. rewrite list_elem_of_fmap. split.
  - intros ([n line] & -> & [Hc Hin]%list_elem_of_filter). simpl in *. eauto.
  - intros (line & Hin & Htext & Hc). exists (line_number m, line).
    split; [destruct m; simpl in *; by subst|].
    apply list_elem_of_filter. by split.
Qed.


(** The scanner reads the file and leaves the state as it was. *)
Lemma analyze_config_file_run p tokens st content :
  fs st !! p = Some (File content) →
  analyze_config_file p tokens st
  = (Ok {| path := p;
           active_matches :=
             matches_of tokens ActiveMatch (enumerate (TextIO.readlines content) 1);
           commented_matches :=
             matches_of tokens CommentedMatch (enumerate (TextIO.readlines content) 1) |},
     st).
Proof.
  intros Hp. unfold analyze_config_file, open_read_lines, bind, get_fs. simpl.
  rewrite Hp. unfold ret. by rewrite analyze_lines_classes.
Qed.

(** ** Substrings and comment prefixes *)

Lemma append_nil_l (s : string) : "" +:+ s = s.
Proof. reflexivity. Qed.

Lemma append_cons (c : ascii) (s t : string) :
  String c s +:+ t = String c (s +:+ t).
Proof. reflexivity. Qed.

Lemma append_nil_r (s : string) : s +:+ "" = s.
Proof. induction s as [|c s IH]; [done|]. by rewrite append_cons, IH. Qed.

Lemma append_assoc (s t u : string) : (s +:+ t) +:+ u = s +:+ t +:+ u.
Proof. induction s as [|c s IH]; [done|]. by rewrite !append_cons, IH. Qed.

Lemma startswith_spec s p :
  Str.startswith s p = true ↔ ∃ post, s = p +:+ post.
Proof.
  revert s. induction p as [|a p IH]; intros s; simpl.
  - split; [intros _; by exists s | done].
  - destruct s as [|b s].
    + split; [done | by intros [post ?]].
    + rewrite andb_true_iff, bool_decide_eq_true, IH. split.
      * intros [-> [post ->]]. by exists post.
      * intros [post Hs]. rewrite append_cons in Hs.
        injection Hs as -> ->. eauto.
Qed.

(** [sub in s] holds exactly when [s] is [pre + sub + post]: a literal,
    case-sensitive substring test. *)
Lemma contains_spec s sub :
  Str.contains s sub = true ↔ ∃ pre post, s = pre +:+ sub +:+ post.
Proof.
  induction s as [|c s IH].
  - simpl. rewrite orb_false_r, startswith_spec. split.
    + intros [post Hs]. by exists "", post.
    + intros ([|? pre] & post & Hs); [by exists post | done].
  - change (Str.contains (String c s) sub)
      with (Str.startswith (String c s) sub || Str.contains s sub).
    rewrite orb_true_iff, startswith_spec, IH. split.
    + intros [[post Hs] | (pre & post & ->)].
      * by exists "", post.
      * by exists (String c pre), post.
    + intros ([|d pre] & post & Hs).
      * left. by exists post.
      * right. rewrite append_cons in Hs. injection Hs as -> ->.
        by exists pre, post.
Qed.

Lemma any_token_in_spec tokens text :
  any_token_in tokens text = true
  ↔ ∃ token, token ∈ tokens ∧ ∃ pre post, text = pre +:+ token +:+ post.
Proof.
  unfold any_token_in. rewrite existsb_exists. split.
  - intros (t & Hin%list_elem_of_In & Hc%contains_spec). eauto.
  - intros (t & Hin & Hc). exists t. split; [by apply list_elem_of_In|].
    by apply contains_spec.
Qed.

(** A line is comment-prefixed exactly when it is white space followed by
    [#]. *)
Lemma comment_prefixed_spec line :
  comment_prefixed line = true
  ↔ ∃ ws rest, line = ws +:+ String "#" rest ∧ blank ws.
Proof.
  unfold comment_prefixed, blank, Str.lstrip. induction line as [|c line IH].
  - split; [done|]. by intros ([|??] & ? & ? & ?).
  - simpl. destruct (Str.isspace c) eqn:Hc.
    + rewrite IH. split.
      * intros (ws & rest & -> & Hws). exists (String c ws), rest.
        split; [done|]. simpl. by rewrite Hc.
      * intros ([|d ws] & rest & Hs & Hws).
        { rewrite append_nil_l in Hs. injection Hs as -> _. done. }
        rewrite append_cons in Hs.
        injection Hs as -> ->. exists ws, rest. split; [done|].
        simpl in Hws. by rewrite Hc in Hws.
    + simpl. rewrite andb_true_r, bool_decide_eq_true. split.
      * intros <-. by exists "", line.
      * intros ([|d ws] & rest & Hs & Hws).
        { rewrite append_nil_l in Hs. by injection Hs as -> _. }
        rewrite append_cons in Hs.
        injection Hs as -> _. simpl in Hws. by rewrite Hc in Hws.
Qed.



(** ** Text files: reading and writing lines *)

Lemma char_in_append s t c :
  Str.char_in (s +:+ t) c = Str.char_in s c || Str.char_in t c.
Proof.
  induction s as [|d s IH]; [done|].
  rewrite append_cons. simpl. by rewrite IH, orb_assoc.
Qed.

Lemma writelines_cons l ls :
  TextIO.writelines (l :: ls) = l +:+ TextIO.writelines ls.
Proof. reflexivity. Qed.

Lemma writelines_app ls1 ls2 :
  TextIO.writelines (ls1 ++ ls2)
  = TextIO.writelines ls1 +:+ TextIO.writelines ls2.
Proof.
  induction ls1 as [|l ls1 IH]; [done|].
  simpl app. by rewrite !writelines_cons, IH, append_assoc.
Qed.

(** Writing the lines of a text gives the text back. *)
Lemma writelines_split_lines s : TextIO.writelines (TextIO.split_lines s) = s.
Proof.
  induction s as [|c s IH]; [done|]. simpl.
  destruct (bool_decide (c = Str.LF)).
  - by rewrite writelines_cons, IH.
  - destruct (TextIO.split_lines s) as [|l ls].
    + simpl in IH. by subst s.
    + rewrite writelines_cons in *. rewrite append_cons. by rewrite IH.
Qed.

Lemma char_in_writelines ls c :
  Str.char_in (TextIO.writelines ls) c = false
  ↔ ∀ l, l ∈ ls → Str.char_in l c = false.
Proof.
  induction ls as [|l ls IH].
  - split; [by intros _ ? ?%elem_of_nil | done].
  - rewrite writelines_cons, char_in_append, orb_false_iff, IH. split.
    + intros [Hl Hls] l' [->|?]%elem_of_cons; auto.
    + intros Hall. split; [apply Hall, list_elem_of_here|].
      intros l' ?. by apply Hall, list_elem_of_further.
Qed.

Lemma split_lines_char_in s c l :
  Str.char_in s c = false → l ∈ TextIO.split_lines s → Str.char_in l c = false.
Proof.
  intros Hs. rewrite <- (writelines_split_lines s) in Hs.
  by apply char_in_writelines.
Qed.

(** A text without CR is read as it is. *)
Lemma universal_newlines_id s :
  Str.char_in s Str.CR = false → TextIO.universal_newlines s = s.
Proof.
  induction s as [|c s IH]; [done|]. simpl.
  intros [Hc Hs]%orb_false_iff.
  rewrite bool_decide_eq_false in Hc.
  rewrite bool_decide_eq_false_2 by congruence. by rewrite IH.
Qed.

(** The text read has no CR left. *)
Lemma universal_newlines_no_cr s :
  Str.char_in (TextIO.universal_newlines s) Str.CR = false.
Proof.
  enough (Hboth : Str.char_in (TextIO.universal_newlines s) Str.CR = false ∧
            ∀ c, Str.char_in (TextIO.universal_newlines (String c s)) Str.CR = false)
    by apply Hboth.
  induction s as [|a s [IH1 IH2]].
  - split; [done|]. intros c. simpl.
    destruct (bool_decide_reflect (c = Str.CR)) as [->|Hc]; [done|].
    simpl. rewrite orb_false_r. by apply bool_decide_eq_false.
  - split; [apply IH2|]. intros c.
    change (TextIO.universal_newlines (String c (String a s))) with
      (if bool_decide (c = Str.CR) then
         String Str.LF (if bool_decide (a = Str.LF)
                        then TextIO.universal_newlines s
                        else TextIO.universal_newlines (String a s))
       else String c (TextIO.universal_newlines (String a s))).
    destruct (bool_decide_reflect (c = Str.CR)) as [->|Hc].
    + destruct (bool_decide (a = Str.LF)); simpl; [apply IH1 | apply IH2].
    + cbn [Str.char_in]. rewrite IH2, orb_false_r. by apply bool_decide_eq_false.
Qed.

Lemma readlines_no_cr content l :
  l ∈ TextIO.readlines content → Str.char_in l Str.CR = false.
Proof. apply split_lines_char_in, universal_newlines_no_cr. Qed.

(** For a file without CR the lines read are the file's text, byte for
    byte. *)
Lemma writelines_readlines content :
  Str.char_in content Str.CR = false →
  TextIO.writelines (TextIO.readlines content) = content.
Proof.
  intros Hcr. unfold TextIO.readlines.
  by rewrite universal_newlines_id, writelines_split_lines.
Qed.

Lemma append_eq_nil s t : s +:+ t = "" → t = "".
Proof. by destruct s. Qed.

Lemma complete_line_cons c l :
  c ≠ Str.LF → complete_line l → complete_line (String c l).
Proof.
  intros Hc (b & -> & Hb). exists (String c b). split; [done|].
  simpl. rewrite Hb, orb_false_r. by apply bool_decide_eq_false.
Qed.

Lemma partial_line_cons c l :
  c ≠ Str.LF → Str.char_in l Str.LF = false → partial_line (String c l).
Proof.
  intros Hc Hl. split; [done|]. simpl.
  rewrite Hl, orb_false_r. by apply bool_decide_eq_false.
Qed.

Lemma lines_wf_cons l ls :
  complete_line l → lines_wf ls → lines_wf (l :: ls).
Proof. intros Hl Hls. destruct ls; simpl; auto. Qed.

Lemma lines_wf_tail l ls : lines_wf (l :: ls) → lines_wf ls.
Proof. destruct ls; simpl; [done | by intros [_ ?]]. Qed.

Lemma split_lines_wf s : lines_wf (TextIO.split_lines s).
Proof.
  induction s as [|c s IH]; [done|]. simpl.
  destruct (bool_decide_reflect (c = Str.LF)) as [->|Hc].
  - apply lines_wf_cons; [|done]. by exists "".
  - destruct (TextIO.split_lines s) as [|l ls].
    + right. by apply partial_line_cons.
    + destruct ls as [|l' ls].
      * destruct IH as [Hl|[_ Hl]].
        -- left. by apply complete_line_cons.
        -- right. by apply partial_line_cons.
      * destruct IH as [Hl Hls]. split; [by apply complete_line_cons | done].
Qed.

Lemma split_lines_complete b rest :
  Str.char_in b Str.LF = false →
  TextIO.split_lines (b +:+ String Str.LF rest)
  = (b +:+ String Str.LF "") :: TextIO.split_lines rest.
Proof.
  induction b as [|c b IH]; [done|].
  simpl Str.char_in. intros [Hc Hb]%orb_false_iff.
  rewrite !append_cons. simpl.
  rewrite bool_decide_eq_false in Hc.
  rewrite bool_decide_eq_false_2 by congruence. by rewrite IH.
Qed.

Lemma split_lines_partial l :
  partial_line l → TextIO.split_lines l = [l].
Proof.
  intros [Hne Hl]. induction l as [|c l IH]; [done|].
  simpl in *. apply orb_false_iff in Hl as [Hc Hl].
  rewrite bool_decide_eq_false in Hc.
  rewrite bool_decide_eq_false_2 by congruence.
  destruct l as [|d l]; [done|]. by rewrite IH.
Qed.

(** Reading back the lines written gives the same lines. *)
Lemma split_lines_writelines ls :
  lines_wf ls → TextIO.split_lines (TextIO.writelines ls) = ls.
Proof.
  induction ls as [|l ls IH]; [done|]. intros Hwf.
  rewrite writelines_cons. destruct ls as [|l' ls].
  - simpl. rewrite append_nil_r. destruct Hwf as [(b & -> & Hb)|Hl].
    + by rewrite split_lines_complete.
    + by apply split_lines_partial.
  - destruct Hwf as [(b & -> & Hb) Hwf].
    rewrite append_assoc, append_cons, append_nil_l.
    rewrite split_lines_complete by done. by rewrite IH.
Qed.

(** Prefixing lines with text that has no LF keeps them the lines of a
    text. *)
Lemma lines_wf_prefixed ls ls' :
  Forall2 prefixed_or_same ls ls' → lines_wf ls → lines_wf ls'.
Proof.
  assert (Hc : ∀ l l', prefixed_or_same l l' → complete_line l → complete_line l').
  { intros l l' [->|(pre & Hpre & ->)] Hl; [done|].
    destruct Hl as (b & -> & Hb). exists (pre +:+ b).
    split; [by rewrite append_assoc|]. by rewrite char_in_append, Hpre, Hb. }
  assert (Hp : ∀ l l', prefixed_or_same l l' → partial_line l → partial_line l').
  { intros l l' [->|(pre & Hpre & ->)] [Hne Hl]; [done|]. split.
    - by intros ?%append_eq_nil.
    - by rewrite char_in_append, Hpre, Hl. }
  induction 1 as [|l l' ls ls' Hl Hls IH]; [done|]. intros Hwf.
  destruct Hls as [|l2 l2' ls ls' Hl2 Hls].
  - destruct Hwf as [?|?]; [left | right]; eauto.
  - destruct Hwf as [? Hwf]. split; [eauto|]. by apply IH.
Qed.

(** ** The mutator's loop *)

Lemma comment_step_updated T site stamp acc item :
  comment_step T site stamp acc item = acc ++ [updated_line T site stamp item].
Proof.
  destruct item as [n line]. unfold comment_step, updated_line. simpl.
  by destruct (_ && _).
Qed.

Lemma comment_fold T site stamp items acc :
  fold_left (comment_step T site stamp) items acc
  = acc ++ (updated_line T site stamp <$> items).
Proof.
  revert acc. induction items as [|item items IH]; intros acc.
  - simpl. by rewrite app_nil_r.
  - cbn [fold_left]. rewrite IH, comment_step_updated, fmap_cons.
    by rewrite <- app_assoc.
Qed.

Lemma comment_lines_map matches site stamp lines :
  comment_lines matches site stamp lines
  = updated_line (target_lines_of matches) site stamp <$> enumerate lines 1.
Proof. unfold comment_lines. by rewrite comment_fold. Qed.

Lemma target_lines_of_elem matches n :
  n ∈ target_lines_of matches ↔ n ∈ line_number <$> matches.
Proof. unfold target_lines_of. by rewrite elem_of_list_to_set. Qed.

Lemma comment_lines_length matches site stamp lines :
  length (comment_lines matches site stamp lines) = length lines.
Proof. by rewrite comment_lines_map, length_fmap, enumerate_length. Qed.

(** Line [i + 1] is rewritten when its number is among the matches and it
    is not comment-prefixed, and is copied otherwise. *)
Lemma comment_lines_lookup matches site stamp lines (i : nat) line :
  lines !! i = Some line →
  comment_lines matches site stamp lines !! i
  = Some (if bool_decide ((Z.of_nat i + 1)%Z ∈ line_number <$> matches)
             && negb (comment_prefixed line)
          then marker site stamp +:+ line
          else line).
Proof.
  intros Hi. rewrite comment_lines_map, list_lookup_fmap, enumerate_lookup, Hi.
  simpl. f_equal. unfold updated_line. simpl.
  rewrite (bool_decide_ext _ _ (target_lines_of_elem matches _)).
  replace (1 + Z.of_nat i)%Z with (Z.of_nat i + 1)%Z by lia.
  destruct (_ && _); [|done].
  unfold deactivated, marker. by rewrite !append_assoc.
Qed.

Lemma updated_line_prefixed T site stamp item :
  Str.char_in site Str.LF = false → Str.char_in stamp Str.LF = false →
  prefixed_or_same item.2 (updated_line T site stamp item).
Proof.
  intros Hsite Hstamp. unfold updated_line.
  destruct (_ && _); [|by left].
  right. exists (marker site stamp). split.
  - unfold marker. rewrite !char_in_append, Hsite, Hstamp. done.
  - unfold deactivated, marker. by rewrite !append_assoc.
Qed.

(** ** Comment prefixes survive the scanner's stripping of the line end *)

Lemma rstrip_with_nil_lstrip (p q : ascii → bool) s :
  (∀ c, q c = true → p c = true) →
  Str.rstrip_with q s = "" → Str.lstrip_with p s = "".
Proof.
  intros Hqp. induction s as [|c s IH]; [done|]. simpl.
  destruct (Str.rstrip_with q s) as [|d r]; [|done].
  destruct (q c) eqn:Hc; [|done]. intros _. rewrite (Hqp c Hc). by apply IH.
Qed.

Lemma comment_prefixed_text_of line :
  comment_prefixed (text_of line) = comment_prefixed line.
Proof.
  unfold comment_prefixed, text_of, Str.rstrip_chars, Str.lstrip.
  set (q := Str.char_in (String Str.LF "")).
  assert (Hqp : ∀ c, q c = true → Str.isspace c = true).
  { intros c. unfold q. simpl. rewrite orb_false_r.
    by intros <-%bool_decide_eq_true. }
  induction line as [|c line IH]; [done|]. simpl.
  destruct (Str.rstrip_with q line) as [|d r] eqn:Hr.
  - apply (rstrip_with_nil_lstrip Str.isspace) in Hr; [|done].
    destruct (q c) eqn:Hc.
    + by rewrite (Hqp c Hc), Hr.
    + simpl. destruct (Str.isspace c); [by rewrite Hr | done].
  - change (Str.lstrip_with Str.isspace (String c (String d r))) with
      (if Str.isspace c then Str.lstrip_with Str.isspace (String d r)
       else String c (String d r)).
    destruct (Str.isspace c); [exact IH | done].
Qed.

Lemma comment_prefixed_marker site stamp line :
  comment_prefixed (marker site stamp +:+ line) = true.
Proof. reflexivity. Qed.

Lemma classify_marker tokens site stamp line :
  classify tokens (text_of (marker site stamp +:+ line)) ≠ ActiveMatch.
Proof.
  unfold classify. rewrite comment_prefixed_text_of, comment_prefixed_marker.
  by destruct (any_token_in _ _).
Qed.

(** ** Runs of [comment_matching_lines] *)

Section Mutator.
Context `{PathOps}.

(** With no matches the call returns at once. *)
Lemma comment_matching_lines_nil p site stamp st :
  comment_matching_lines p [] site stamp st = (Ok p, st).
Proof. reflexivity. Qed.

(** Whenever a call with matches returns, it returns the backup path and
    has written the updated lines; whenever it raises, the files are as
    they were. *)
Lemma comment_matching_lines_run p matches site stamp st content r st' :
  matches ≠ [] →
  fs st !! p = Some (File content) →
  comment_matching_lines p matches site stamp st = (r, st') →
  match r with
  | Ok b =>
      b = backup_path_of p st ∧
      fs st' !! p
      = Some (File (TextIO.writelines
                      (comment_lines matches site stamp (TextIO.readlines content))))
  | Raise _ => fs st' = fs st
  end.
Proof.
  intros Hne Hp. destruct matches as [|m ms]; [done|].
  unfold comment_matching_lines, backup_path_of, copy2.
  unfold_run. rewrite Hp. unfold_run.
  set (b := mkpath _).
  set (dst := if bool_decide (fs st !! b = Some Dir)
              then joinpath b (basename p) else b).
  destruct (bool_decide (is_Some (fs st !! dst)) && bool_decide (resolve p = resolve dst)).
  { intros [= <- <-]. done. }
  rewrite Hp.
  destruct (fs st !! dst) as [[c|]|] eqn:Hdst; unfold_run.
  - destruct (decide (dst = p)) as [->|Hd].
    + rewrite lookup_insert_eq. intros [= <- <-]. cbn [fs].
      by rewrite lookup_insert_eq.
    + rewrite lookup_insert_ne, Hp by done. intros [= <- <-]. cbn [fs].
      by rewrite lookup_insert_eq.
  - intros [= <- <-]. done.
  - destruct (decide (dst = p)) as [->|Hd]; [congruence|].
    rewrite lookup_insert_ne, Hp by done. intros [= <- <-]. cbn [fs].
    by rewrite lookup_insert_eq.
Qed.

(** When nothing is at the backup path, the call returns: the backup holds
    the old text, the file the updated lines, and nothing else changes. *)
Lemma comment_matching_lines_ok p matches site stamp st content :
  matches ≠ [] →
  fs st !! p = Some (File content) →
  fs st !! backup_path_of p st = None →
  comment_matching_lines p matches site stamp st
  = (Ok (backup_path_of p st),
     {| fs := <[p := File (TextIO.writelines
                             (comment_lines matches site stamp
                                (TextIO.readlines content)))]>
                (<[backup_path_of p st := File content]> (fs st));
        clock := λ n, clock st (S n);
        stdout := stdout st |}).
Proof.
  intros Hne Hp Hb. destruct matches as [|m ms]; [done|].
  unfold comment_matching_lines, backup_path_of, copy2 in *.
  unfold_run. rewrite Hp. unfold_run.
  set (b := mkpath _) in *.
  rewrite Hb. rewrite (bool_decide_eq_false_2 (None = Some Dir)) by done.
  rewrite Hb. rewrite (bool_decide_eq_false_2 (is_Some None)) by (by intros [??]).
  cbn [andb]. rewrite Hp. unfold_run.
  assert (b ≠ p) by congruence.
  rewrite lookup_insert_ne, Hp by done. done.
Qed.

End Mutator.

(** ** Scanning a file again after the mutator has run *)

(** Reading the updated lines back from the file gives the same lines,
    provided the marker brings no line break. *)
Lemma readlines_updated T site stamp content :
  single_line site → single_line stamp →
  let updated :=
    updated_line T site stamp <$> enumerate (TextIO.readlines content) 1 in
  TextIO.readlines (TextIO.writelines updated) = updated.
Proof.
  intros [Hsite_lf Hsite_cr] [Hstamp_lf Hstamp_cr] updated.
  unfold TextIO.readlines at 1.
  rewrite universal_newlines_id.
  - apply split_lines_writelines.
    apply (lines_wf_prefixed (TextIO.readlines content)); [|apply split_lines_wf].
    unfold updated.
    generalize (TextIO.readlines content) 1%Z. clear -Hsite_lf Hstamp_lf.
    induction l as [|l ls IH]; intros start; csimpl; constructor.
    + by apply (updated_line_prefixed T site stamp (start, l)).
    + apply IH.
  - apply char_in_writelines. intros l' Hl'. unfold updated in Hl'.
    apply list_elem_of_fmap in Hl' as ([n l] & -> & Hin).
    apply enumerate_elem in Hin as (i & _ & Hi).
    apply list_elem_of_lookup_2, readlines_no_cr in Hi.
    unfold updated_line. simpl. destruct (_ && _); [|done].
    unfold deactivated. by rewrite !char_in_append, Hsite_cr, Hstamp_cr, Hi.
Qed.

(** The active matches of the updated lines are the old active matches whose
    numbers were not targeted. *)
Lemma rescan_active tokens (T : gset Z) site stamp lines start :
  matches_of tokens ActiveMatch
    (enumerate (updated_line T site stamp <$> enumerate lines start) start)
  = filter (λ m, line_number m ∉ T)
      (matches_of tokens ActiveMatch (enumerate lines start)).
Proof.
  revert start. induction lines as [|l ls IH]; intros start; [done|].
  csimpl. rewrite !matches_of_cons, filter_app, IH. f_equal.
  unfold updated_line. simpl.
  destruct (bool_decide_reflect (start ∈ T)) as [HT|HT]; simpl.
  - destruct (comment_prefixed l) eqn:Hl; simpl.
    + assert (classify tokens (text_of l) ≠ ActiveMatch) as Hc.
      { unfold classify. rewrite comment_prefixed_text_of, Hl.
        by destruct (any_token_in _ _). }
      by rewrite !decide_False by done.
    + assert (Hd : deactivated site stamp l = marker site stamp +:+ l).
      { unfold deactivated, marker. by rewrite !append_assoc. }
      rewrite Hd, (decide_False (P := _ = ActiveMatch))
        by apply classify_marker.
      destruct (decide _); [|done].
      by rewrite filter_cons_False by (simpl; tauto).
  - destruct (decide _); [|done].
    by rewrite filter_cons_True by done.
Qed.

Lemma filter_own_numbers (ms : list Match) :
  filter (λ m, line_number m ∉ line_number <$> ms) ms = [].
Proof.
  destruct (filter _ ms) as [|m l] eqn:Hf; [done|]. exfalso.
  assert (Hin : m ∈ filter (λ m, line_number m ∉ line_number <$> ms) ms)
    by (rewrite Hf; apply list_elem_of_here).
  apply list_elem_of_filter in Hin as [Hn Hin].
  apply Hn, list_elem_of_fmap. eauto.
Qed.

(** ** The mutator: claims C3, C6, C9 and C10 *)

Section MutatorClaims.
Context `{PathOps}.

(** C6.  With an empty match list [comment_matching_lines] returns the path
    it was given and leaves the whole state as it was: the file keeps its
    content byte for byte, no backup is created, the clock is not read and
    nothing is printed. *)
Theorem comment_matching_lines_no_matches p site stamp st :
  comment_matching_lines p [] site stamp st = (Ok p, st).
Proof. apply comment_matching_lines_nil. Qed.

(** C3, as amended.  With a non-empty match list, every line the text handle
    yields is written back: prefixed with the marker when its number is
    among the matches and it is not comment-prefixed, and as read otherwise.
    The lines read are the file's own text, line endings included, when the
    file has no CR; the call returns whenever the backup path is free. *)
Theorem comment_matching_lines_rewrites p matches site stamp st content :
  matches ≠ [] →
  fs st !! p = Some (File content) →
  let lines := TextIO.readlines content in
  let updated := comment_lines matches site stamp lines in
  (Str.char_in content Str.CR = false → TextIO.writelines lines = content) ∧
  length updated = length lines ∧
  (∀ (i : nat) line, lines !! i = Some line →
     updated !! i
     = Some (if bool_decide ((Z.of_nat i + 1)%Z ∈ line_number <$> matches)
                && negb (comment_prefixed line)
             then marker site stamp +:+ line
             else line)) ∧
  (∀ b st', comment_matching_lines p matches site stamp st = (Ok b, st') →
     fs st' !! p = Some (File (TextIO.writelines updated))) ∧
  (fs st !! backup_path_of p st = None →
   ∃ st', comment_matching_lines p matches site stamp st
          = (Ok (backup_path_of p st), st') ∧
          fs st' = <[p := File (TextIO.writelines updated)]>
                     (<[backup_path_of p st := File content]> (fs st))).
Proof.
  intros Hne Hp lines updated. split_and!.
  - apply writelines_readlines.
  - apply comment_lines_length.
  - intros i line Hi. by apply comment_lines_lookup.
  - intros b st' Hrun.
    by apply (comment_matching_lines_run _ _ _ _ _ content) in Hrun as [_ ?].
  - intros Hfree. eexists. split; [by apply comment_matching_lines_ok|done].
Qed.

(** C10, as amended.  Whatever the match list, a line read as
    comment-prefixed is copied to the updated lines as it was read, also
    when its number is among the matches; so the file a returning call
    writes has that line in place.  The line read is the file's own line,
    byte for byte, when the file has no CR.  A line that carries the marker
    is comment-prefixed, hence no call prefixes it a second time. *)
Theorem commented_line_never_prefixed p matches site stamp st content
    (i : nat) line :
  fs st !! p = Some (File content) →
  TextIO.readlines content !! i = Some line →
  comment_prefixed line = true →
  let updated := comment_lines matches site stamp (TextIO.readlines content) in
  updated !! i = Some line ∧
  (matches ≠ [] →
   ∀ b st', comment_matching_lines p matches site stamp st = (Ok b, st') →
     fs st' !! p = Some (File (TextIO.writelines updated))) ∧
  (matches = [] → comment_matching_lines p matches site stamp st = (Ok p, st)) ∧
  (Str.char_in content Str.CR = false →
   TextIO.split_lines content !! i = Some line) ∧
  (∀ site0 stamp0 line0 lines' (j : nat),
     lines' !! j = Some (marker site0 stamp0 +:+ line0) →
     comment_lines matches site stamp lines' !! j
     = Some (marker site0 stamp0 +:+ line0)).
Proof.
  intros Hp Hi Hc updated. split_and!.
  - unfold updated. rewrite (comment_lines_lookup _ _ _ _ _ _ Hi), Hc.
    by rewrite andb_false_r.
  - intros Hne b st' Hrun.
    by apply (comment_matching_lines_run _ _ _ _ _ content) in Hrun as [_ ?].
  - intros ->. apply comment_matching_lines_nil.
  - intros Hcr. unfold TextIO.readlines in Hi.
    by rewrite universal_newlines_id in Hi.
  - intros site0 stamp0 line0 lines' j Hj.
    rewrite (comment_lines_lookup _ _ _ _ _ _ Hj), comment_prefixed_marker.
    by rewrite andb_false_r.
Qed.

(** What a second scan finds after a returning call: the old active matches
    whose numbers were not in the match list. *)
Lemma rescan_after_comment p tokens matches site stamp st content b st1 :
  single_line site → single_line stamp →
  fs st !! p = Some (File content) →
  comment_matching_lines p matches site stamp st = (Ok b, st1) →
  ∃ a1, analyze_config_file p tokens st1 = (Ok a1, st1) ∧
    active_matches a1
    = filter (λ m, line_number m ∉ line_number <$> matches)
        (matches_of tokens ActiveMatch (enumerate (TextIO.readlines content) 1)).
Proof.
  intros Hsite Hstamp Hp Hrun. destruct matches as [|m0 ms].
  - rewrite comment_matching_lines_nil in Hrun. injection Hrun as _ <-.
    eexists. split; [by apply analyze_config_file_run|]. simpl.
    induction (matches_of _ _ _) as [|m l IH]; [done|].
    rewrite filter_cons_True, <- IH; [done|]. by intros ?%elem_of_nil.
  - apply (comment_matching_lines_run _ _ _ _ _ content) in Hrun as [_ Hst1];
      [|done..].
    eexists. split; [by apply analyze_config_file_run|]. simpl.
    rewrite comment_lines_map, readlines_updated, rescan_active by done.
    apply list_filter_iff. intros m. by rewrite target_lines_of_elem.
Qed.

(** C9, as amended.  When neither the site identifier nor the stamp contains
    a line break, a second scan after a returning call finds as active
    matches only old active matches that were not in the match list; after
    a call on the scanner's own active matches it finds none, and the
    second call is the no-op of C6. *)
Theorem deactivation_idempotent p tokens site stamp st content :
  single_line site → single_line stamp →
  fs st !! p = Some (File content) →
  ∃ a, analyze_config_file p tokens st = (Ok a, st) ∧
    (∀ matches b st1,
       comment_matching_lines p matches site stamp st = (Ok b, st1) →
       ∃ a1, analyze_config_file p tokens st1 = (Ok a1, st1) ∧
         active_matches a1
         = filter (λ m, line_number m ∉ line_number <$> matches)
             (active_matches a)) ∧
    (∀ b st1,
       comment_matching_lines p (active_matches a) site stamp st = (Ok b, st1) →
       ∃ a1, analyze_config_file p tokens st1 = (Ok a1, st1) ∧
         active_matches a1 = [] ∧
         comment_matching_lines p (active_matches a1) site stamp st1
         = (Ok p, st1)) ∧
    (fs st !! backup_path_of p st = None →
     ∃ b st1,
       comment_matching_lines p (active_matches a) site stamp st = (Ok b, st1)).
Proof.
  intros Hsite Hstamp Hp.
  eexists. split; [by apply analyze_config_file_run|]. simpl. split_and!.
  - intros matches b st1 Hrun.
    by apply (rescan_after_comment _ tokens _ _ _ _ content) in Hrun.
  - intros b st1 Hrun.
    apply (rescan_after_comment _ tokens _ _ _ _ content) in Hrun
      as (a1 & Ha1 & Hact); [|done..].
    rewrite filter_own_numbers in Hact.
    exists a1. split_and!; [done..|]. rewrite Hact.
    apply comment_matching_lines_nil.
  - intros Hfree.
    destruct (matches_of tokens ActiveMatch (enumerate (TextIO.readlines content) 1))
      as [|m ms] eqn:Hm.
    + eexists _, _. apply comment_matching_lines_nil.
    + eexists _, _. by apply comment_matching_lines_ok.
Qed.

End MutatorClaims.

(** ** Closed examples for the scanner and the mutator *)


Lemma comment_matching_lines_rewrites_witness :
  let matches := [{| line_number := 1;
                     line_text := "0 * * * * root /lu/sites/mit/run" |}] in
  matches ≠ [] ∧
  fs Sample.st0 !! Sample.crontab = Some (File Sample.crontab_text) ∧
  ∃ st', comment_matching_lines (H := Posix.ops) Sample.crontab matches
           "mit" "2026-11-03" Sample.st0
         = (Ok "/etc/crontab.bak.20261103090507", st') ∧
    fs st' !! Sample.crontab
    = Some (File ("# deactivated mit 2026-11-03 0 * * * * root /lu/sites/mit/run"
                  +:+ Sample.nl)) ∧
    fs st' !! "/etc/crontab.bak.20261103090507" = Some (File Sample.crontab_text).
Proof.
  intros matches.
  assert (Hne : matches ≠ []) by done.
  assert (Hp : fs Sample.st0 !! Sample.crontab = Some (File Sample.crontab_text))
    by (vm_compute; reflexivity).
  split; [exact Hne|]. split; [exact Hp|].
  destruct (comment_matching_lines_rewrites (H := Posix.ops)
              Sample.crontab matches "mit" "2026-11-03" Sample.st0 _ Hne Hp)
    as (_ & _ & _ & _ & Hok).
  destruct Hok as (st' & Hrun & Hfs); [vm_compute; reflexivity|].
  exists st'. split; [exact Hrun|]. rewrite Hfs.
  split; vm_compute; reflexivity.
Defined.

(** C3 as stated fails on a file with CR LF line endings: the text handle
    yields every line with a bare LF, so the line that is not in the match
    set is written back with another line ending than it had, and the file
    is not what prefixing the file's own lines would give. *)
Lemma crlf_line_endings_not_preserved :
  let matches := [{| line_number := 2; line_text := "0 * * * * mit" |}] in
  let run := comment_matching_lines (H := Posix.ops) Sample.crontab matches
               "mit" "2026-11-03" Sample.st_crlf in
  fs Sample.st_crlf !! Sample.crontab
  = Some (File ("MAILTO=root" +:+ Sample.crlf +:+ "0 * * * * mit" +:+ Sample.crlf)) ∧
  run.1 = Ok "/etc/crontab.bak.20261103090507" ∧
  fs run.2 !! Sample.crontab
  = Some (File ("MAILTO=root" +:+ Sample.nl
                +:+ "# deactivated mit 2026-11-03 0 * * * * mit" +:+ Sample.nl)) ∧
  fs run.2 !! Sample.crontab
  ≠ Some (File (TextIO.writelines
                  (comment_lines matches "mit" "2026-11-03"
                     (TextIO.split_lines Sample.crontab_crlf)))).
Proof. vm_compute. split_and!; [reflexivity..|discriminate]. Qed.

Lemma commented_line_never_prefixed_witness :
  let matches := [{| line_number := 1; line_text := "Use VHost mit" |};
                  {| line_number := 2; line_text := "  # mit was here" |}] in
  let line := "  # mit was here" +:+ Sample.nl in
  fs Sample.st0 !! Sample.vhosts = Some (File Sample.vhosts_text) ∧
  TextIO.readlines Sample.vhosts_text !! 1 = Some line ∧
  comment_prefixed line = true ∧
  comment_lines matches "mit" "2026-11-03"
    (TextIO.readlines Sample.vhosts_text) !! 1 = Some line.
Proof.
  intros matches line.
  assert (Hp : fs Sample.st0 !! Sample.vhosts = Some (File Sample.vhosts_text))
    by (vm_compute; reflexivity).
  assert (Hi : TextIO.readlines Sample.vhosts_text !! 1 = Some line)
    by (vm_compute; reflexivity).
  assert (Hc : comment_prefixed line = true) by (vm_compute; reflexivity).
  split_and!; [exact Hp | exact Hi | exact Hc |].
  destruct (commented_line_never_prefixed (H := Posix.ops)
              Sample.vhosts matches "mit" "2026-11-03" Sample.st0 _ 1 line
              Hp Hi Hc) as [Hkept _].
  exact Hkept.
Defined.

(** C10 as stated fails on a comment line with a CR LF line ending: the
    line is in the match list, no marker is put before it, and yet it is
    not written back unchanged, for the text handle has read it, and writes
    it, with a bare LF. *)
Lemma commented_crlf_line_changed :
  let matches := [{| line_number := 1; line_text := "# mit" |}] in
  let run := comment_matching_lines (H := Posix.ops) Sample.crontab matches
               "mit" "2026-11-03" Sample.st_comment_crlf in
  fs Sample.st_comment_crlf !! Sample.crontab
  = Some (File ("# mit" +:+ Sample.crlf)) ∧
  TextIO.split_lines Sample.comment_crlf = ["# mit" +:+ Sample.crlf] ∧
  comment_prefixed ("# mit" +:+ Sample.crlf) = true ∧
  run.1 = Ok "/etc/crontab.bak.20261103090507" ∧
  fs run.2 !! Sample.crontab = Some (File ("# mit" +:+ Sample.nl)) ∧
  fs run.2 !! Sample.crontab ≠ fs Sample.st_comment_crlf !! Sample.crontab.
Proof. vm_compute. split_and!; [reflexivity..|discriminate]. Qed.

Lemma deactivation_idempotent_witness :
  single_line "mit" ∧ single_line "2026-11-03" ∧
  fs Sample.st0 !! Sample.crontab = Some (File Sample.crontab_text) ∧
  ∃ a b st1 a1,
    analyze_config_file Sample.crontab ["mit"] Sample.st0 = (Ok a, Sample.st0) ∧
    comment_matching_lines (H := Posix.ops) Sample.crontab (active_matches a)
      "mit" "2026-11-03" Sample.st0 = (Ok b, st1) ∧
    analyze_config_file Sample.crontab ["mit"] st1 = (Ok a1, st1) ∧
    active_matches a1 = [] ∧
    comment_matching_lines (H := Posix.ops) Sample.crontab (active_matches a1)
      "mit" "2026-11-03" st1 = (Ok Sample.crontab, st1).
Proof.
  assert (Hsite : single_line "mit") by (vm_compute; done).
  assert (Hstamp : single_line "2026-11-03") by (vm_compute; done).
  assert (Hp : fs Sample.st0 !! Sample.crontab = Some (File Sample.crontab_text))
    by (vm_compute; reflexivity).
  split_and!; [exact Hsite | exact Hstamp | exact Hp |].
  destruct (deactivation_idempotent (H := Posix.ops)
              Sample.crontab ["mit"] "mit" "2026-11-03" Sample.st0 _
              Hsite Hstamp Hp) as (a & Ha & _ & Hown & Hret).
  destruct Hret as (b & st1 & Hrun); [vm_compute; reflexivity|].
  destruct (Hown b st1 Hrun) as (a1 & Ha1 & Hnil & Hagain).
  by exists a, b, st1, a1.
Defined.

(** C9 as stated fails when the site identifier contains a line break: the
    rewritten line is read back as two lines, and the second one is an
    active match of the second scan. *)
Lemma line_break_in_site_reactivates :
  let tokens := normalize_tokens Sample.site_two_lines ["x"] in
  let first := [{| line_number := 1; line_text := "x" |}] in
  let run := comment_matching_lines (H := Posix.ops) Sample.crontab first
               Sample.site_two_lines "2026-11-03" Sample.st_x in
  (analyze_config_file Sample.crontab tokens Sample.st_x).1
  = Ok {| path := Sample.crontab; active_matches := first;
          commented_matches := [] |} ∧
  run.1 = Ok "/etc/crontab.bak.20261103090507" ∧
  fs run.2 !! Sample.crontab
  = Some (File ("# deactivated a" +:+ Sample.nl +:+ "b 2026-11-03 x" +:+ Sample.nl)) ∧
  (analyze_config_file Sample.crontab tokens run.2).1
  = Ok {| path := Sample.crontab;
          active_matches := [{| line_number := 2; line_text := "b 2026-11-03 x" |}];
          commented_matches := [] |}.
Proof. vm_compute. split_and!; reflexivity. Qed.

(** ** Runs of [main] *)

Lemma bind_ok {A B} (m : M A) (k : A → M B) st a st1 :
  m st = (Ok a, st1) → bind m k st = k a st1.
Proof. intros Hm. unfold bind. by rewrite Hm. Qed.

Lemma bind_raise {A B} (m : M A) (k : A → M B) st exn st1 :
  m st = (Raise exn, st1) → bind m k st = (Raise exn, st1).
Proof. intros Hm. unfold bind. by rewrite Hm. Qed.

Lemma bind_print {B} line (k : unit → M B) st :
  bind (print line) k st
  = k tt {| fs := fs st; clock := clock st; stdout := stdout st ++ [line] |}.
Proof. reflexivity. Qed.

Lemma print_each {A} (f : A → string) (l : list A) st :
  for_each l (λ _ x, print (f x)) tt st
  = (Ok tt, {| fs := fs st; clock := clock st; stdout := stdout st ++ (f <$> l) |}).
Proof.
  revert st. induction l as [|x l IH]; intros st.
  - simpl. rewrite app_nil_r. by destruct st.
  - cbn [for_each]. rewrite bind_print, IH. cbn [fs clock stdout].
    by rewrite <- app_assoc.
Qed.

Lemma print_analysis_run label a st :
  ∃ out, print_analysis label a st
         = (Ok tt, {| fs := fs st; clock := clock st; stdout := stdout st ++ out |}).
Proof.
  unfold print_analysis. rewrite !bind_print. cbn [fs clock stdout].
  erewrite bind_ok by apply print_each. unfold print. cbn [fs clock stdout].
  eexists. by rewrite <- !app_assoc.
Qed.

Section MainRun.
Context `{PathOps}.

Lemma choose_archive_target_run archive site st :
  choose_archive_target archive site st
  = if bool_decide (is_Some (fs st !! joinpath archive site))
    then (Ok (joinpath archive (site +:+ "-" +:+ strftime_compact (clock st 0))),
          {| fs := fs st; clock := λ n, clock st (S n); stdout := stdout st |})
    else (Ok (joinpath archive site), st).
Proof.
  unfold choose_archive_target. unfold_run.
  by destruct (bool_decide (is_Some (fs st !! joinpath archive site))).
Qed.

(** One configuration file: the scan prints, changes no file, and either
    raises on a directory or adds the file's errors. *)
Lemma scan_config_run args acc label p st r st' :
  scan_config args (normalize_tokens (site args) (tokens args)) acc (label, p) st
  = (r, st') →
  same_files st st' ∧
  match r with
  | Ok acc' =>
      fs st !! p ≠ Some Dir ∧ acc'.2 = acc.2 ++ config_errors args (fs st) p
  | Raise _ => fs st !! p = Some Dir
  end.
Proof.
  destruct acc as [analyses errors].
  unfold scan_config, config_errors, same_files, active_in.
  erewrite bind_ok by reflexivity.
  destruct (fs st !! p) as [[content|]|] eqn:Hp.
  - rewrite bool_decide_eq_true_2 by eauto. cbn [negb].
    erewrite bind_ok by (by apply analyze_config_file_run).
    match goal with
    | |- context [print_analysis ?l ?a] =>
        destruct (print_analysis_run l a st) as [out Hout]
    end.
    erewrite bind_ok by exact Hout. cbn [active_matches].
    destruct (apply args && negb (allow_missing args) && _);
      intros [= <- <-]; cbn [fs stdout snd]; rewrite ?app_nil_r; eauto.
  - rewrite bool_decide_eq_true_2 by eauto. cbn [negb].
    unfold analyze_config_file. unfold_run. rewrite Hp.
    intros [= <- <-]. eauto using app_nil_r.
  - rewrite bool_decide_eq_false_2 by (by intros [??]). cbn [negb].
    intros [= <- <-]. cbn [snd]. split; [eauto using app_nil_r | done].
Qed.

(** The first loop of [main]. *)
Lemma scan_loop_run args configs acc st r st' :
  for_each configs
    (scan_config args (normalize_tokens (site args) (tokens args))) acc st
  = (r, st') →
  same_files st st' ∧
  match r with
  | Ok acc' =>
      (∀ label p, (label, p) ∈ configs → fs st !! p ≠ Some Dir) ∧
      acc'.2 = acc.2 ++ concat (config_errors args (fs st) <$> configs.*2)
  | Raise _ => ∃ label p, (label, p) ∈ configs ∧ fs st !! p = Some Dir
  end.
Proof.
  revert acc st. induction configs as [|[label p] configs IH]; intros acc st.
  - simpl. intros [= <- <-]. split; [split; [done | exists []; by rewrite app_nil_r]|].
    split; [by intros ?? ?%elem_of_nil | by rewrite app_nil_r].
  - cbn [for_each]. unfold bind at 1.
    destruct (scan_config _ _ acc (label, p) st) as [[acc1|exn] st1] eqn:Hstep;
      apply scan_config_run in Hstep as [[Hfs1 [out1 Hout1]] Hr1].
    + intros Hrest. apply IH in Hrest as [[Hfs' [out' Hout']] Hr'].
      destruct Hr1 as [Hp Hacc1].
      split; [split; [congruence | exists (out1 ++ out'); by rewrite Hout', Hout1, app_assoc]|].
      destruct r as [acc'|exn].
      * destruct Hr' as [Hall Hacc']. split.
        -- intros l q [[= -> ->]|Hin]%elem_of_cons; [done|].
           rewrite <- Hfs1. by apply (Hall l).
        -- rewrite Hacc', Hacc1, Hfs1. csimpl. by rewrite <- app_assoc.
      * destruct Hr' as (l & q & Hin & Hq). exists l, q.
        split; [by apply list_elem_of_further | by rewrite <- Hfs1].
    + intros [= <- <-]. split; [split; eauto|].
      exists label, p. split; [apply list_elem_of_here | done].
Qed.

End MainRun.

Section MainCases.
Context `{PathOps}.

Lemma concat_fmap_elem {A B} (f : A → list B) (l : list A) (y : B) :
  y ∈ concat (f <$> l) ↔ ∃ x, x ∈ l ∧ y ∈ f x.
Proof.
  induction l as [|x l IH]; csimpl.
  - split; [by intros ?%elem_of_nil | by intros (? & ?%elem_of_nil & _)].
  - rewrite elem_of_app, IH. split.
    + intros [?|(x' & ? & ?)]; [exists x | exists x'];
        (split; [|done]); [apply list_elem_of_here | by apply list_elem_of_further].
    + intros (x' & [->|?]%elem_of_cons & ?); eauto.
Qed.

(** The errors collected are exactly the messages of the four
    preconditions that fail. *)
Lemma blocking_errors_elem args entries e :
  e ∈ blocking_errors_of args entries ↔
    (∃ label p, (label, p) ∈ CONFIG_PATHS ∧ entries !! p = None ∧
       e = "Missing config file: " +:+ p) ∨
    (apply args = true ∧ allow_missing args = false ∧
     ∃ label p content, (label, p) ∈ CONFIG_PATHS ∧
       entries !! p = Some (File content) ∧ active_in args content = [] ∧
       e = "No active matching lines found in " +:+ p +:+ ". "
           +:+ "Use --allow-missing to skip this safety check.") ∨
    (site_dir_missing args entries ∧
     e = "Site directory does not exist: " +:+ source_site_dir_of args) ∨
    (site_dir_archived args entries ∧
     e = "Site directory is already under archive: " +:+ source_site_dir_of args).
Proof.
  unfold blocking_errors_of. rewrite elem_of_app, concat_fmap_elem.
  assert (Hcfg : ∀ p, p ∈ CONFIG_PATHS.*2 ↔ ∃ label, (label, p) ∈ CONFIG_PATHS).
  { intros p. rewrite list_elem_of_fmap. split.
    - intros ([l q] & -> & ?). by exists l.
    - intros [l ?]. by exists (l, p). }
  split.
  - intros [(p & [label Hin]%Hcfg & He)|He].
    + unfold config_errors in He.
      destruct (entries !! p) as [[content|]|] eqn:Hp.
      * destruct (apply args) eqn:Ha, (allow_missing args) eqn:Hm; simpl in He;
          try by apply elem_of_nil in He.
        destruct (bool_decide_reflect (active_in args content = [])) as [Hact|];
          [|by apply elem_of_nil in He].
        apply list_elem_of_singleton in He. right; left.
        split_and!; [done..|]. by exists label, p, content.
      * by apply elem_of_nil in He.
      * apply list_elem_of_singleton in He. left. by exists label, p.
    + unfold site_errors in He. right; right.
      unfold site_dir_missing, site_dir_archived.
      destruct (entries !! source_site_dir_of args) as [e0|] eqn:Hs.
      * destruct (bool_decide_reflect
                    (parent (resolve (source_site_dir_of args))
                     = resolve (archive_dir_of args))) as [Hpar|];
          [|by apply elem_of_nil in He].
        apply list_elem_of_singleton in He. right. eauto.
      * apply list_elem_of_singleton in He. by left.
  - intros [(label & p & Hin & Hp & ->)
           |[(Ha & Hm & label & p & content & Hin & Hp & Hact & ->)
           |[[Hs ->]|[[[e0 Hs] Hpar] ->]]]].
    + left. exists p. split; [apply Hcfg; eauto|].
      unfold config_errors. rewrite Hp. apply list_elem_of_here.
    + left. exists p. split; [apply Hcfg; eauto|].
      unfold config_errors. rewrite Hp, Ha, Hm. simpl.
      rewrite bool_decide_eq_true_2 by done. apply list_elem_of_here.
    + right. unfold site_errors. unfold site_dir_missing in Hs. rewrite Hs.
      apply list_elem_of_here.
    + right. unfold site_errors. rewrite Hs.
      rewrite bool_decide_eq_true_2 by done. apply list_elem_of_here.
Qed.

(** Some precondition fails exactly when some error is collected. *)
Lemma blocked_iff_errors args entries :
  blocked args entries ↔ blocking_errors_of args entries ≠ [].
Proof.
  split.
  - intros Hb Hnil.
    assert (∃ e, e ∈ blocking_errors_of args entries) as [e He].
    { destruct Hb as [(label & p & ? & ?)
                     |[(? & ? & label & p & content & ? & ? & ?)|[?|?]]];
        eexists; apply blocking_errors_elem.
      - left. eauto.
      - right; left. split_and!; [done..|]. eauto 10.
      - right; right; left. eauto.
      - right; right; right. eauto. }
    rewrite Hnil in He. by apply elem_of_nil in He.
  - intros Hne. destruct (blocking_errors_of args entries) as [|e l] eqn:He; [done|].
    assert (Hin : e ∈ blocking_errors_of args entries)
      by (rewrite He; apply list_elem_of_here).
    apply blocking_errors_elem in Hin
      as [(label & p & ? & ? & _)
         |[(? & ? & label & p & content & ? & ? & ? & _)|[[? _]|[? _]]]].
    + left. by exists label, p.
    + right; left. split_and!; [done..|]. by exists label, p, content.
    + right; right; by left.
    + right; right; by right.
Qed.

End MainCases.

Section MainClaims.
Context `{PathOps}.

(** The three ways a run of [main] ends before it changes anything, and the
    one way it goes on to apply the changes. *)
Lemma main_cases args st :
  (∃ exn st', main args st = (Raise exn, st') ∧ fs st' = fs st ∧
     ¬ configs_readable (fs st)) ∨
  (configs_readable (fs st) ∧ blocking_errors_of args (fs st) ≠ [] ∧
   ∃ st' report, main args st = (Ok 2%Z, st') ∧ fs st' = fs st ∧
     stdout st' = stdout st ++ report ++
       "Cannot continue:"
         :: ((λ error, "  - " +:+ error) <$> blocking_errors_of args (fs st))) ∨
  (configs_readable (fs st) ∧ blocking_errors_of args (fs st) = [] ∧
   apply args = false ∧
   ∃ st' report, main args st = (Ok 0%Z, st') ∧ fs st' = fs st ∧
     stdout st' = stdout st ++ report ++
       ["Dry run complete. Re-run with --apply to make changes."]) ∨
  (configs_readable (fs st) ∧ blocking_errors_of args (fs st) = [] ∧
   apply args = true).
Proof.
  unfold main. rewrite !bind_print. cbn [fs clock stdout].
  match goal with
  | |- context [bind (for_each CONFIG_PATHS ?body ?acc) ?k ?st3] =>
      destruct (for_each CONFIG_PATHS body acc st3) as [[acc'|exn] st4] eqn:Hscan;
      pose proof (scan_loop_run _ _ _ _ _ _ Hscan) as [[Hfs4 [out4 Hout4]] Hr]
  end; cbn [fs stdout] in Hfs4, Hout4, Hr.
  2:{ left. rewrite (bind_raise _ _ _ _ _ Hscan).
      destruct Hr as (label & p & Hin & Hp).
      exists exn, st4. split_and!; [done..|]. intros Hread.
      unfold configs_readable in Hread. rewrite Forall_forall in Hread.
      by apply (Hread (label, p)). }
  right. rewrite (bind_ok _ _ _ _ _ Hscan).
  destruct Hr as [Hread Herrs]. destruct acc' as [analyses errs].
  assert (configs_readable (fs st)) as Hreadable.
  { apply Forall_forall. intros [label p] Hin. by apply (Hread label p). }
  cbn [snd] in Herrs. rewrite app_nil_l in Herrs.
  assert (Htarget : ∃ target st5,
            choose_archive_target (mkpath (archive_dir args)) (site args) st4
            = (Ok target, st5) ∧ fs st5 = fs st ∧ stdout st5 = stdout st4).
  { rewrite choose_archive_target_run.
    destruct (bool_decide _); eexists _, _; by split_and!. }
  destruct Htarget as (target & st5 & Htarget & Hfs5 & Hout5).
  erewrite bind_ok by exact Htarget. rewrite !bind_print. cbn [fs clock stdout].
  erewrite bind_ok by reflexivity. cbn [fs clock stdout]. rewrite Hfs5.
  fold (source_site_dir_of args) (archive_dir_of args).
  set (all_errors := if negb _ then _ else _).
  assert (Hall : all_errors = blocking_errors_of args (fs st)).
  { unfold all_errors, blocking_errors_of, site_errors. rewrite Herrs.
    destruct (fs st !! source_site_dir_of args) as [e0|].
    - rewrite bool_decide_eq_true_2 by eauto. cbn [negb].
      destruct (bool_decide (parent _ = _)); [done | by rewrite app_nil_r].
    - by rewrite bool_decide_eq_false_2 by (by intros [??]). }
  clearbody all_errors. subst all_errors.
  destruct (blocking_errors_of args (fs st)) as [|e errors] eqn:Hblocking.
  - right. destruct (apply args) eqn:Happly; cbn [negb].
    + right. by split_and!.
    + left. split_and!; [done..|]. rewrite bind_print.
      eexists _, _. split; [reflexivity|]. cbn [fs stdout].
      split; [done|]. rewrite (app_assoc (stdout st)). f_equal.
      rewrite Hout5, Hout4. repeat rewrite <- (app_assoc (stdout st)).
      reflexivity.
  - left. split_and!; [done..|]. rewrite bind_print.
    erewrite bind_ok by apply print_each.
    eexists _, _. split; [reflexivity|]. cbn [fs stdout].
    split; [done|].
    rewrite <- (app_assoc _ ["Cannot continue:"]), (app_assoc (stdout st)).
    f_equal.
    rewrite Hout5, Hout4. repeat rewrite <- (app_assoc (stdout st)).
    reflexivity.
Qed.


(** A run that is not an unblocked apply run leaves the file system as it
    was. *)
Lemma main_cases_unchanged args st :
  apply args = false ∨ blocking_errors_of args (fs st) ≠ [] →
  fs (main args st).2 = fs st.
Proof.
  intros Hcase.
  destruct (main_cases args st)
    as [(exn & st' & -> & ? & _)
       |[(_ & _ & st' & report & -> & ? & _)
       |[(_ & _ & _ & st' & report & -> & ? & _)|(_ & ? & ?)]]];
    [done..|]. destruct Hcase; congruence.
Qed.



End MainClaims.

(** ** Archive target selection: claim C1 *)

Section ArchiveTarget.
Context `{PathOps}.

(** When nothing is at [<archive_dir>/<site>], that path is returned, the
    state is untouched, and the path returned does not exist. *)
Lemma choose_archive_target_free archive site st :
  fs st !! joinpath archive site = None →
  choose_archive_target archive site st = (Ok (joinpath archive site), st).
Proof.
  intros Hfree. rewrite choose_archive_target_run.
  by rewrite bool_decide_eq_false_2 by (rewrite Hfree; by intros [??]).
Qed.

(** When [<archive_dir>/<site>] exists, the path returned is
    [<archive_dir>/<site>-<timestamp>], whether or not something is
    there. *)
Lemma choose_archive_target_taken archive site st :
  is_Some (fs st !! joinpath archive site) →
  choose_archive_target archive site st
  = (Ok (joinpath archive (site +:+ "-" +:+ strftime_compact (clock st 0))),
     {| fs := fs st; clock := λ n, clock st (S n); stdout := stdout st |}).
Proof.
  intros Htaken. rewrite choose_archive_target_run.
  by rewrite bool_decide_eq_true_2.
Qed.

End ArchiveTarget.

(** C1 fails in the code: with both [<archive_dir>/mit] and
    [<archive_dir>/mit-20261103090507] present and the clock at 3 November
    2026, 09:05:07, [choose_archive_target] returns the second path, which
    exists at the time of the call. *)
Theorem choose_archive_target_returns_existing_path :
  let run := choose_archive_target (H := Posix.ops)
               "/lu/sites/archive" "mit" Sample.st_archived in
  is_Some (fs Sample.st_archived !! "/lu/sites/archive/mit") ∧
  run.1 = Ok "/lu/sites/archive/mit-20261103090507" ∧
  fs run.2 = fs Sample.st_archived ∧
  (path_exists "/lu/sites/archive/mit-20261103090507" Sample.st_archived).1
  = Ok true.
Proof.
  assert (Htaken : is_Some (fs Sample.st_archived
                            !! joinpath (PathOps := Posix.ops)
                                 "/lu/sites/archive" "mit")).
  { exists Dir. vm_compute. reflexivity. }
  intros run. subst run.
  rewrite (choose_archive_target_taken (H := Posix.ops) _ _ _ Htaken).
  split_and!.
  - exact Htaken.
  - vm_compute. reflexivity.
  - reflexivity.
  - vm_compute. reflexivity.
Qed.

(** In that state a run of [main] in apply mode returns 0 and moves the
    site directory inside the existing archive entry. *)
Example main_apply_into_existing_archive :
  let run := main (H := Posix.ops) Sample.apply_args Sample.st_archived in
  run.1 = Ok 0%Z ∧
  fs run.2 !! "/lu/sites/mit" = None ∧
  fs run.2 !! "/lu/sites/archive/mit-20261103090507/mit" = Some Dir.
Proof. vm_compute. split_and!; reflexivity. Qed.

(** ** Closed examples for [main] *)

(** Apply mode with every precondition met: exit status 0, the crontab line
    is commented out, its backup holds the old text, and the site directory
    is at [<archive_dir>/mit]. *)
Example main_apply_example :
  let run := main (H := Posix.ops) Sample.apply_args Sample.st0 in
  run.1 = Ok 0%Z ∧
  fs run.2 !! Sample.crontab
  = Some (File ("# deactivated mit 2026-11-03 0 * * * * root /lu/sites/mit/run"
                +:+ Sample.nl)) ∧
  fs run.2 !! "/etc/crontab.bak.20261103090507" = Some (File Sample.crontab_text) ∧
  fs run.2 !! "/lu/sites/mit" = None ∧
  fs run.2 !! "/lu/sites/archive/mit" = Some Dir.
Proof. vm_compute. split_and!; reflexivity. Qed.





(** The same happens with a carriage return in the site identifier, which
    the text handle reads back as a line end. *)
Example carriage_return_in_site_reactivates :
  let tokens := normalize_tokens Sample.site_with_cr ["x"] in
  let run := comment_matching_lines (H := Posix.ops) Sample.crontab
               [{| line_number := 1; line_text := "x" |}]
               Sample.site_with_cr "2026-11-03" Sample.st_x in
  run.1 = Ok "/etc/crontab.bak.20261103090507" ∧
  (analyze_config_file Sample.crontab tokens run.2).1
  = Ok {| path := Sample.crontab;
          active_matches := [{| line_number := 2; line_text := "b 2026-11-03 x" |}];
          commented_matches := [] |}.
Proof. vm_compute. split; reflexivity. Qed.

(** Dry run with one active line per configuration file: exit status 0,
    one active match reported per file, nothing changed. *)
Example main_dry_run_example :
  let run := main (H := Posix.ops) Sample.dry_run_args Sample.st0 in
  run.1 = Ok 0%Z ∧ fs run.2 = fs Sample.st0 ∧
  filter (λ line, line = "  active matching lines: 1") (stdout run.2)
  = ["  active matching lines: 1"; "  active matching lines: 1";
     "  active matching lines: 1"].
Proof.
  split_and!; [vm_compute; reflexivity | |vm_compute; reflexivity].
  apply (main_cases_unchanged (H := Posix.ops)). left. reflexivity.
Qed.

(** Apply run without the site directory: exit status 2, no file changed,
    no backup created. *)
Example main_apply_without_site_example :
  let run := main (H := Posix.ops) Sample.apply_args Sample.st_no_site in
  run.1 = Ok 2%Z ∧ fs run.2 = fs Sample.st_no_site ∧
  last (stdout run.2) = Some "  - Site directory does not exist: /lu/sites/mit".
Proof.
  split_and!; [vm_compute; reflexivity | |vm_compute; reflexivity].
  apply (main_cases_unchanged (H := Posix.ops)). right.
  vm_compute. discriminate.
Qed.

(** Apply run with [--allow-missing] and a crontab that has no active
    match: exit status 0, the crontab is untouched and has no backup, the
    other files are updated. *)
Example main_allow_missing_example :
  let run := main (H := Posix.ops) Sample.allow_missing_args
               Sample.st_quiet_crontab in
  run.1 = Ok 0%Z ∧
  fs run.2 !! Sample.crontab = Some (File ("MAILTO=root" +:+ Sample.nl)) ∧
  fs run.2 !! "/etc/crontab.bak.20261103090507" = None ∧
  fs run.2 !! Sample.exim
  = Some (File "# deactivated mit 2026-11-03 dc_other_hostnames='mit.learningu.org'") ∧
  fs run.2 !! "/lu/sites/archive/mit" = Some Dir.
Proof. vm_compute. split_and!; reflexivity. Qed.

(* ===================================================================== *)
(** * Part III: further properties of the script                          *)
(* ===================================================================== *)

(** ** Token normalisation, one token at a time *)

Lemma first_occurrences_snoc seen l x :
  first_occurrences seen (l ++ [x])
  = first_occurrences seen l
    ++ (if bool_decide (x ∈ seen ∨ x ∈ l) then [] else [x]).
Proof.
  revert seen. induction l as [|y l IH]; intros seen; simpl.
  - destruct (bool_decide_reflect (x ∈ seen)) as [Hx|Hx].
    + rewrite bool_decide_eq_true_2; [done | by left].
    + rewrite bool_decide_eq_false_2; [done|].
      intros [?|?%elem_of_nil]; done.
  - destruct (bool_decide_reflect (y ∈ seen)) as [Hy|Hy].
    + rewrite IH. f_equal.
      rewrite (bool_decide_ext (x ∈ seen ∨ x ∈ y :: l) (x ∈ seen ∨ x ∈ l));
        [done|].
      rewrite elem_of_cons. split; [|tauto].
      intros [?|[->|?]]; tauto.
    + rewrite IH. simpl. f_equal. f_equal.
      rewrite (bool_decide_ext (x ∈ seen ∨ x ∈ y :: l)
                 (x ∈ seen ++ [y] ∨ x ∈ l)); [done|].
      rewrite elem_of_app, list_elem_of_singleton, elem_of_cons. tauto.
Qed.

(** X1.  Appending one more extra token adds its stripped form at the end
    of the token list when that form is not empty and not yet in the list,
    and leaves the list as it is otherwise. *)
Theorem normalize_tokens_snoc site extra t :
  normalize_tokens site (extra ++ [t])
  = normalize_tokens site extra
    ++ (if bool_decide (Str.strip t = ""
                        ∨ Str.strip t ∈ normalize_tokens site extra)
        then [] else [Str.strip t]).
Proof.
  rewrite !normalize_tokens_unfold.
  change (site :: extra ++ [t]) with ((site :: extra) ++ [t]).
  rewrite fmap_app. change (Str.strip <$> [t]) with [Str.strip t].
  rewrite first_occurrences_snoc, filter_app. f_equal.
  set (l := Str.strip <$> site :: extra).
  destruct (decide (Str.strip t = "")) as [Hempty|Hne].
  - rewrite (bool_decide_eq_true_2 (_ ∨ _ ∈ filter _ _)) by (by left).
    destruct (bool_decide _); [done|].
    by rewrite filter_cons_False by (unfold Str.truthy; tauto).
  - assert (Hiff : (Str.strip t ∈ [] ∨ Str.strip t ∈ l)
              ↔ (Str.strip t = "" ∨
                 Str.strip t ∈ filter Str.truthy (first_occurrences [] l))).
    { rewrite list_elem_of_filter, first_occurrences_elem. unfold Str.truthy.
      split.
      - intros [?%elem_of_nil|?]; [done|]. right. split; [done|].
        split; [done | by intros ?%elem_of_nil].
      - intros [?|(_ & ? & _)]; [done | by right]. }
    rewrite (bool_decide_ext _ _ Hiff).
    destruct (bool_decide _); [done|].
    by rewrite filter_cons_True.
Qed.

(** ** The scanner: errors, order and shape of the matches *)

Lemma analyze_config_file_analysis_of p tokens st content :
  fs st !! p = Some (File content) →
  analyze_config_file p tokens st = (Ok (analysis_of tokens p content), st).
Proof. apply analyze_config_file_run. Qed.

(** X2.  The scanner only reads: whatever is at the path, the state after
    the call is the state before it.  A missing path raises
    [FileNotFoundError] and a directory raises [IsADirectoryError]; the
    scanner catches neither. *)
Theorem analyze_config_file_read_only p tokens st :
  (analyze_config_file p tokens st).2 = st ∧
  (fs st !! p = None →
   (analyze_config_file p tokens st).1 = Raise "FileNotFoundError") ∧
  (fs st !! p = Some Dir →
   (analyze_config_file p tokens st).1 = Raise "IsADirectoryError") ∧
  (∀ content, fs st !! p = Some (File content) →
   (analyze_config_file p tokens st).1 = Ok (analysis_of tokens p content)).
Proof.
  split_and!.
  - destruct (fs st !! p) as [[content|]|] eqn:Hp.
    + by rewrite (analyze_config_file_analysis_of _ _ _ _ Hp).
    + unfold analyze_config_file. unfold_run. by rewrite Hp.
    + unfold analyze_config_file. unfold_run. by rewrite Hp.
  - intros Hp. unfold analyze_config_file. unfold_run. by rewrite Hp.
  - intros Hp. unfold analyze_config_file. unfold_run. by rewrite Hp.
  - intros content Hp. by rewrite (analyze_config_file_analysis_of _ _ _ _ Hp).
Qed.

Lemma matches_of_increasing tokens c ls start :
  let L := matches_of tokens c (enumerate ls start) in
  (∀ m, m ∈ L →
     (start ≤ line_number m)%Z ∧ (line_number m < start + Z.of_nat (length ls))%Z) ∧
  (∀ (i j : nat) m m', L !! i = Some m → L !! j = Some m' → i < j →
     (line_number m < line_number m')%Z).
Proof.
  revert start. induction ls as [|l ls IH]; intros start.
  - split; [by intros m ?%elem_of_nil | by intros i j m m' ?].
  - cbv zeta. cbn [enumerate]. rewrite matches_of_cons.
    destruct (IH (start + 1)%Z) as [Hbound Hsorted]. cbn [length].
    destruct (decide _) as [Hc|Hc]; cbn [app].
    + split.
      * intros m [->|Hm]%elem_of_cons; [simpl; lia|].
        apply Hbound in Hm. lia.
      * intros [|i] [|j] m m' Hi Hj Hij; try lia; simpl in Hi, Hj.
        -- injection Hi as <-. simpl.
           apply list_elem_of_lookup_2, Hbound in Hj. lia.
        -- apply (Hsorted i j); [done..|lia].
    + split.
      * intros m Hm. apply Hbound in Hm. lia.
      * apply Hsorted.
Qed.

(** X3.  Both match lists of an analysis are in file order: line numbers
    increase strictly along each list, and every line number lies between 1
    and the number of lines read. *)
Theorem analyze_config_file_matches_ordered p tokens st content a :
  fs st !! p = Some (File content) →
  analyze_config_file p tokens st = (Ok a, st) →
  ∀ L, L = active_matches a ∨ L = commented_matches a →
    (∀ m, m ∈ L →
       (1 ≤ line_number m)%Z ∧
       (line_number m ≤ Z.of_nat (length (TextIO.readlines content)))%Z) ∧
    (∀ (i j : nat) m m', L !! i = Some m → L !! j = Some m' → i < j →
       (line_number m < line_number m')%Z).
Proof.
  intros Hp Hrun L HL.
  rewrite (analyze_config_file_analysis_of _ _ _ _ Hp) in Hrun.
  injection Hrun as <-.
  destruct HL as [-> | ->]; simpl;
    match goal with
    | |- context [matches_of ?t ?c (enumerate ?ls ?s)] =>
        destruct (matches_of_increasing t c ls s) as [Hbound Hsorted]
    end;
    (split; [intros m Hm; apply Hbound in Hm; lia | exact Hsorted]).
Qed.

Lemma analyze_config_file_matches_ordered_witness :
  fs Sample.st0 !! Sample.vhosts = Some (File Sample.vhosts_text) ∧
  ∀ m, m ∈ active_matches (analysis_of ["Use"] Sample.vhosts Sample.vhosts_text) →
       (1 ≤ line_number m)%Z ∧ (line_number m ≤ 3)%Z.
Proof.
  assert (Hp : fs Sample.st0 !! Sample.vhosts = Some (File Sample.vhosts_text))
    by (vm_compute; reflexivity).
  split; [exact Hp|].
  apply (analyze_config_file_matches_ordered Sample.vhosts ["Use"] Sample.st0
           Sample.vhosts_text _ Hp
           (analyze_config_file_analysis_of _ _ _ _ Hp)).
  by left.
Defined.

Lemma char_in_rstrip_with p s c :
  Str.char_in s c = false → Str.char_in (Str.rstrip_with p s) c = false.
Proof.
  induction s as [|d s IH]; [done|]. simpl.
  intros [Hd Hs]%orb_false_iff. specialize (IH Hs).
  destruct (Str.rstrip_with p s) as [|e r].
  - destruct (p d); [done|]. simpl. by rewrite Hd.
  - cbn [Str.char_in] in *. by rewrite Hd, IH.
Qed.

Lemma rstrip_with_snoc p b c :
  p c = true →
  Str.rstrip_with p (b +:+ String c "") = Str.rstrip_with p b.
Proof.
  intros Hc. induction b as [|d b IH].
  - simpl. by rewrite Hc.
  - rewrite append_cons. simpl. by rewrite IH.
Qed.

Lemma lines_wf_elem ls l :
  lines_wf ls → l ∈ ls → complete_line l ∨ partial_line l.
Proof.
  induction ls as [|l0 ls IH]; [by intros _ ?%elem_of_nil|].
  intros Hwf [->|Hin]%elem_of_cons.
  - destruct ls; [done | left; apply Hwf].
  - apply IH; [by apply lines_wf_tail in Hwf | done].
Qed.

(** The text recorded for a line read from a file has no line break. *)
Lemma text_of_single_line content line :
  line ∈ TextIO.readlines content → single_line (text_of line).
Proof.
  intros Hin. split.
  - apply (lines_wf_elem _ _ (split_lines_wf _)) in Hin
      as [(b & -> & Hb)|[_ Hl]]; unfold text_of, Str.rstrip_chars.
    + rewrite rstrip_with_snoc by done. by apply char_in_rstrip_with.
    + by apply char_in_rstrip_with.
  - apply char_in_rstrip_with. by apply readlines_no_cr in Hin.
Qed.

Lemma contains_char_in s sub c :
  Str.contains s sub = true → Str.char_in sub c = true → Str.char_in s c = true.
Proof.
  intros (pre & post & ->)%contains_spec Hc.
  rewrite !char_in_append, Hc. by rewrite orb_true_r.
Qed.

(** X4.  The text recorded in a match never contains a line break, so a
    token that contains one matches no line: with only such tokens both
    match lists are empty. *)
Theorem analyze_config_file_single_line_texts p tokens st content a :
  fs st !! p = Some (File content) →
  analyze_config_file p tokens st = (Ok a, st) →
  (∀ m, m ∈ active_matches a ++ commented_matches a →
     single_line (line_text m)) ∧
  ((∀ t, t ∈ tokens → ¬ single_line t) →
   active_matches a = [] ∧ commented_matches a = []).
Proof.
  intros Hp Hrun.
  rewrite (analyze_config_file_analysis_of _ _ _ _ Hp) in Hrun.
  injection Hrun as <-. simpl.
  assert (Htext : ∀ c m,
            m ∈ matches_of tokens c (enumerate (TextIO.readlines content) 1) →
            single_line (line_text m) ∧ classify tokens (line_text m) = c).
  { intros c m (line & (i & _ & Hi)%enumerate_elem & -> & Hc)%matches_of_elem.
    split; [|done]. by apply list_elem_of_lookup_2, text_of_single_line in Hi. }
  split.
  - intros m [Hm|Hm]%elem_of_app; by apply Htext in Hm as [? _].
  - intros Htokens.
    assert (Hnone : ∀ c m, c ≠ NoMatch →
              m ∉ matches_of tokens c (enumerate (TextIO.readlines content) 1)).
    { intros c m Hc Hm. apply Htext in Hm as [[Hlf Hcr] Hclass].
      assert (any_token_in tokens (line_text m) = true) as Hany.
      { unfold classify in Hclass.
        destruct (any_token_in tokens (line_text m)); [done | congruence]. }
      unfold any_token_in in Hany. apply existsb_exists in Hany as (t & Ht & Hin).
      apply list_elem_of_In in Ht. apply (Htokens t Ht). split.
      - destruct (Str.char_in t Str.LF) eqn:Ht_lf; [|done].
        by rewrite (contains_char_in _ _ _ Hin Ht_lf) in Hlf.
      - destruct (Str.char_in t Str.CR) eqn:Ht_cr; [|done].
        by rewrite (contains_char_in _ _ _ Hin Ht_cr) in Hcr. }
    split.
    + destruct (matches_of tokens ActiveMatch _) as [|m l] eqn:E; [done|].
      exfalso. apply (Hnone ActiveMatch m); [done|]. rewrite E. apply list_elem_of_here.
    + destruct (matches_of tokens CommentedMatch _) as [|m l] eqn:E; [done|].
      exfalso. apply (Hnone CommentedMatch m); [done|]. rewrite E. apply list_elem_of_here.
Qed.

Lemma analyze_config_file_single_line_texts_witness :
  fs Sample.st_x !! Sample.crontab = Some (File ("x" +:+ Sample.nl)) ∧
  active_matches (analysis_of [Sample.site_two_lines] Sample.crontab
                    ("x" +:+ Sample.nl)) = [].
Proof.
  assert (Hp : fs Sample.st_x !! Sample.crontab = Some (File ("x" +:+ Sample.nl)))
    by (vm_compute; reflexivity).
  split; [exact Hp|].
  destruct (analyze_config_file_single_line_texts Sample.crontab
              [Sample.site_two_lines] Sample.st_x _ _ Hp
              (analyze_config_file_analysis_of _ _ _ _ Hp)) as [_ Hnone].
  apply Hnone. intros t ->%list_elem_of_singleton [Hlf _].
  vm_compute in Hlf. discriminate.
Defined.

(** ** The reporter *)

Lemma print_analysis_exact label a st :
  print_analysis label a st
  = (Ok tt, {| fs := fs st; clock := clock st;
               stdout := stdout st ++ analysis_report label a |}).
Proof.
  unfold print_analysis, analysis_report.
  rewrite !bind_print. cbn [fs clock stdout].
  erewrite bind_ok by apply print_each. unfold print. cbn [fs clock stdout].
  by rewrite <- !app_assoc.
Qed.

(** X5.  [print_analysis] prints the header, the two counts, one line per
    active match with its line number and text, and an empty line: four
    lines more than there are active matches.  The commented matches are
    counted, not listed.  Nothing else changes. *)
Theorem print_analysis_output label a st :
  print_analysis label a st
  = (Ok tt, {| fs := fs st; clock := clock st;
               stdout := stdout st ++ analysis_report label a |}) ∧
  length (analysis_report label a) = 4 + length (active_matches a).
Proof.
  split; [apply print_analysis_exact|].
  unfold analysis_report. rewrite !length_app, length_fmap. simpl. lia.
Qed.

(** ** The mutator's loop as a function of the line numbers *)

(** X6.  Only the line numbers of the matches count: two match lists with
    the same line numbers, in whatever order, multiplicity or recorded
    text, rewrite the lines in the same way. *)
Theorem comment_lines_numbers_only matches matches' site stamp lines :
  (∀ n, n ∈ line_number <$> matches ↔ n ∈ line_number <$> matches') →
  comment_lines matches site stamp lines
  = comment_lines matches' site stamp lines.
Proof.
  intros Hsame. rewrite !comment_lines_map.
  assert (target_lines_of matches = target_lines_of matches') as ->; [|done].
  apply set_eq. intros n. by rewrite !target_lines_of_elem.
Qed.

Lemma comment_lines_numbers_only_witness :
  comment_lines
    [{| line_number := 1; line_text := "Use VHost mit" |}]
    "mit" "2026-11-03" (TextIO.readlines Sample.vhosts_text)
  = comment_lines
      [{| line_number := 1; line_text := "stale text" |};
       {| line_number := 1; line_text := "" |}]
      "mit" "2026-11-03" (TextIO.readlines Sample.vhosts_text).
Proof.
  apply comment_lines_numbers_only. intros n.
  rewrite !list_elem_of_fmap. split.
  - intros (m & -> & ->%list_elem_of_singleton). eexists. split; [|apply list_elem_of_here]. done.
  - intros (m & -> & [->| ->%list_elem_of_singleton]%elem_of_cons);
      (eexists; split; [|apply list_elem_of_here]); done.
Defined.

(** X7.  The loop is idempotent on the lines themselves: running it again
    with the same matches on the lines it produced, with whatever site and
    stamp, changes nothing. *)
Theorem comment_lines_idempotent matches site stamp site' stamp' lines :
  comment_lines matches site' stamp' (comment_lines matches site stamp lines)
  = comment_lines matches site stamp lines.
Proof.
  apply list_eq. intros i.
  destruct (lines !! i) as [line|] eqn:Hi.
  - pose proof (comment_lines_lookup matches site stamp lines i line Hi) as Hfirst.
    rewrite (comment_lines_lookup _ _ _ _ _ _ Hfirst), Hfirst. f_equal.
    destruct (bool_decide _); [|done].
    destruct (comment_prefixed line) eqn:Hc; cbn [negb andb].
    + by rewrite Hc.
    + by rewrite comment_prefixed_marker.
  - assert (Hlen := comment_lines_length matches site stamp lines).
    apply lookup_ge_None in Hi.
    rewrite !(proj2 (lookup_ge_None _ _)); [done| |]; rewrite ?comment_lines_length; lia.
Qed.

(** X8.  A non-empty match list that targets only comment-prefixed lines or
    lines that do not exist rewrites every line as it was read; the call
    still goes through the backup and the write: a backup is created and,
    for a file without CR, the file keeps its text byte for byte. *)
Theorem comment_matching_lines_nothing_to_comment `{PathOps}
    p matches site stamp st content :
  matches ≠ [] →
  fs st !! p = Some (File content) →
  fs st !! backup_path_of p st = None →
  (∀ (i : nat) line, TextIO.readlines content !! i = Some line →
     (Z.of_nat i + 1)%Z ∈ line_number <$> matches →
     comment_prefixed line = true) →
  comment_lines matches site stamp (TextIO.readlines content)
  = TextIO.readlines content ∧
  ∃ st', comment_matching_lines p matches site stamp st
         = (Ok (backup_path_of p st), st') ∧
    fs st' !! backup_path_of p st = Some (File content) ∧
    (Str.char_in content Str.CR = false →
     fs st' !! p = Some (File content)).
Proof.
  intros Hne Hp Hfree Hstale.
  assert (Hsame : comment_lines matches site stamp (TextIO.readlines content)
                  = TextIO.readlines content).
  { apply list_eq. intros i.
    destruct (TextIO.readlines content !! i) as [line|] eqn:Hi.
    - rewrite (comment_lines_lookup _ _ _ _ _ _ Hi). f_equal.
      destruct (bool_decide_reflect
                  ((Z.of_nat i + 1)%Z ∈ line_number <$> matches)) as [Hin|];
        [|done].
      by rewrite (Hstale i line Hi Hin).
    - apply lookup_ge_None in Hi. apply lookup_ge_None.
      by rewrite comment_lines_length. }
  split; [exact Hsame|].
  eexists. split; [by apply comment_matching_lines_ok|]. cbn [fs].
  assert (backup_path_of p st ≠ p) by congruence.
  split.
  - by rewrite lookup_insert_ne, lookup_insert_eq.
  - intros Hcr. by rewrite lookup_insert_eq, Hsame, writelines_readlines.
Qed.

Lemma comment_matching_lines_nothing_to_comment_witness :
  let matches := [{| line_number := 2; line_text := "  # mit was here" |};
                  {| line_number := 9; line_text := "no such line" |}] in
  ∃ st', comment_matching_lines (H := Posix.ops) Sample.vhosts matches
           "mit" "2026-11-03" Sample.st0
         = (Ok (backup_path_of (H := Posix.ops) Sample.vhosts Sample.st0), st') ∧
    fs st' !! Sample.vhosts = Some (File Sample.vhosts_text).
Proof.
  intros matches.
  assert (Hne : matches ≠ []) by done.
  assert (Hp : fs Sample.st0 !! Sample.vhosts = Some (File Sample.vhosts_text))
    by (vm_compute; reflexivity).
  assert (Hfree : fs Sample.st0 !! backup_path_of (H := Posix.ops)
                                   Sample.vhosts Sample.st0 = None)
    by (vm_compute; reflexivity).
  assert (Hstale : ∀ (i : nat) line,
            TextIO.readlines Sample.vhosts_text !! i = Some line →
            (Z.of_nat i + 1)%Z ∈ line_number <$> matches →
            comment_prefixed line = true).
  { intros i line Hi Hin.
    apply list_elem_of_fmap in Hin as (m & Hn & Hm). unfold matches in Hm.
    apply elem_of_cons in Hm as [->| ->%list_elem_of_singleton]; simpl in Hn.
    - assert (i = 1) as -> by lia. vm_compute in Hi. injection Hi as <-.
      vm_compute. reflexivity.
    - assert (i = 8) as -> by lia. vm_compute in Hi. discriminate. }
  destruct (comment_matching_lines_nothing_to_comment (H := Posix.ops)
              Sample.vhosts matches "mit" "2026-11-03" Sample.st0 _
              Hne Hp Hfree Hstale) as (_ & st' & Hrun & _ & Hkeep).
  exists st'. split; [exact Hrun|]. apply Hkeep. vm_compute. reflexivity.
Defined.

(** ** The mutator: what a call touches *)

Section MutatorFrame.
Context `{PathOps}.

(** A call with matches, case by case. *)
Lemma comment_matching_lines_cases p m ms site stamp st :
  comment_matching_lines p (m :: ms) site stamp st
  = match fs st !! p with
    | None => (Raise "FileNotFoundError", st)
    | Some Dir => (Raise "IsADirectoryError", st)
    | Some (File content) =>
        let st1 := {| fs := fs st; clock := λ n, clock st (S n);
                      stdout := stdout st |} in
        let b := backup_path_of p st in
        let dst := if bool_decide (fs st !! b = Some Dir)
                   then joinpath b (basename p) else b in
        if bool_decide (is_Some (fs st !! dst))
           && bool_decide (resolve p = resolve dst)
        then (Raise "SameFileError", st1)
        else
          match fs st !! dst with
          | Some Dir => (Raise "IsADirectoryError", st1)
          | _ =>
              (Ok b,
               {| fs := <[p := File (commented_text (m :: ms) site stamp content)]>
                          (<[dst := File content]> (fs st));
                  clock := λ n, clock st (S n);
                  stdout := stdout st |})
          end
    end.
Proof.
  unfold comment_matching_lines, backup_path_of, copy2, commented_text.
  unfold_run.
  destruct (fs st !! p) as [[content|]|] eqn:Hp; [|done..].
  unfold_run.
  set (b := mkpath _).
  set (dst := if bool_decide (fs st !! b = Some Dir)
              then joinpath b (basename p) else b).
  destruct (bool_decide (is_Some (fs st !! dst)) && bool_decide (resolve p = resolve dst));
    [done|].
  rewrite Hp.
  destruct (fs st !! dst) as [[c|]|] eqn:Hdst; unfold_run; [|done|].
  - destruct (decide (dst = p)) as [->|Hd].
    + by rewrite lookup_insert_eq.
    + by rewrite lookup_insert_ne, Hp.
  - destruct (decide (dst = p)) as [->|Hd]; [congruence|].
    by rewrite lookup_insert_ne, Hp.
Qed.

(** X10.  A call with matches that returns has read the clock once and
    printed nothing; its return value is the backup path; the copy of the
    old text is at that path (or inside it, when it is a directory), which
    is never the file itself; the file holds the updated lines; and every
    other path is as it was. *)
Theorem comment_matching_lines_frame p matches site stamp st b st' :
  matches ≠ [] →
  comment_matching_lines p matches site stamp st = (Ok b, st') →
  ∃ content dst,
    fs st !! p = Some (File content) ∧
    b = backup_path_of p st ∧
    dst = (if bool_decide (fs st !! b = Some Dir)
           then joinpath b (basename p) else b) ∧
    dst ≠ p ∧
    fs st' !! dst = Some (File content) ∧
    fs st' !! p = Some (File (commented_text matches site stamp content)) ∧
    (∀ q, q ≠ p → q ≠ dst → fs st' !! q = fs st !! q) ∧
    clock st' = (λ n, clock st (S n)) ∧
    stdout st' = stdout st.
Proof.
  intros Hne. destruct matches as [|m ms]; [done|].
  rewrite comment_matching_lines_cases.
  destruct (fs st !! p) as [[content|]|] eqn:Hp; [|done..]. cbv zeta.
  set (b0 := backup_path_of p st).
  set (dst := if bool_decide (fs st !! b0 = Some Dir)
              then joinpath b0 (basename p) else b0).
  destruct (bool_decide (is_Some (fs st !! dst))
            && bool_decide (resolve p = resolve dst)) eqn:Hsame; [done|].
  assert (Hdp : dst ≠ p).
  { intros ->. rewrite Hp in Hsame.
    rewrite bool_decide_eq_true_2 in Hsame by eauto.
    by rewrite bool_decide_eq_true_2 in Hsame. }
  intros Hrun.
  assert (Hst' : b = b0 ∧
            st' = {| fs := <[p := File (commented_text (m :: ms) site stamp content)]>
                             (<[dst := File content]> (fs st));
                     clock := λ n, clock st (S n);
                     stdout := stdout st |}).
  { revert Hrun. destruct (fs st !! dst) as [[c|]|]; [|done|];
      by intros [= <- <-]. }
  destruct Hst' as [-> ->]. exists content, dst. cbn [fs clock stdout].
  split_and!; [done..| | | |done|done].
  - by rewrite lookup_insert_ne, lookup_insert_eq.
  - by rewrite lookup_insert_eq.
  - intros q Hq Hqd. by rewrite !lookup_insert_ne.
Qed.

End MutatorFrame.

Lemma comment_matching_lines_frame_witness :
  let matches := [{| line_number := 1;
                     line_text := "0 * * * * root /lu/sites/mit/run" |}] in
  let run := comment_matching_lines (H := Posix.ops) Sample.crontab matches
               "mit" "2026-11-03" Sample.st0 in
  run.1 = Ok "/etc/crontab.bak.20261103090507" ∧
  fs run.2 !! Sample.vhosts = fs Sample.st0 !! Sample.vhosts ∧
  stdout run.2 = stdout Sample.st0.
Proof.
  intros matches run.
  assert (Hne : matches ≠ []) by done.
  assert (Hrun : run = (Ok "/etc/crontab.bak.20261103090507", run.2))
    by (vm_compute; reflexivity).
  destruct (comment_matching_lines_frame (H := Posix.ops) _ _ _ _ _ _ _ Hne Hrun)
    as (content & dst & _ & Hb & Hdst & _ & _ & _ & Hframe & _ & Hout).
  split_and!; [by rewrite Hrun | | exact Hout].
  apply Hframe; [done|]. rewrite Hdst. vm_compute. discriminate.
Defined.

(** ** A run of [main], step by step *)

Lemma state_eta st :
  {| fs := fs st; clock := clock st; stdout := stdout st |} = st.
Proof. by destruct st. Qed.

Lemma bind_inv_ok {A B} (m : M A) (k : A → M B) st b st' :
  bind m k st = (Ok b, st') →
  ∃ a st1, m st = (Ok a, st1) ∧ k a st1 = (Ok b, st').
Proof.
  unfold bind. destruct (m st) as [[a|exn] st1]; [eauto | done].
Qed.

Section MainSteps.
Context `{PathOps}.

(** One round of the first loop, exactly. *)
Lemma scan_config_exact args acc label p st :
  fs st !! p ≠ Some Dir →
  scan_config args (tokens_of args) acc (label, p) st
  = (Ok (acc.1 ++ scanned (tokens_of args) (fs st) [(label, p)],
         acc.2 ++ config_errors args (fs st) p),
     {| fs := fs st; clock := clock st;
        stdout := stdout st ++ config_report (tokens_of args) (fs st) (label, p) |}).
Proof.
  intros Hdir. destruct acc as [analyses errors].
  unfold scan_config, config_errors, config_report, scanned, active_in, tokens_of.
  cbn [omap list_omap fst snd].
  erewrite bind_ok by reflexivity.
  destruct (fs st !! p) as [[content|]|] eqn:Hp; [|done|].
  - rewrite bool_decide_eq_true_2 by eauto. cbn [negb].
    erewrite bind_ok by (by apply analyze_config_file_run).
    erewrite bind_ok by apply print_analysis_exact.
    cbn [active_matches]. unfold analysis_of.
    by destruct (apply args && negb (allow_missing args) && _);
      rewrite ?app_nil_r.
  - rewrite bool_decide_eq_false_2 by (by intros [??]). cbn [negb].
    unfold ret. by rewrite !app_nil_r, state_eta.
Qed.

Lemma scanned_cons tokens entries item configs :
  scanned tokens entries (item :: configs)
  = scanned tokens entries [item] ++ scanned tokens entries configs.
Proof.
  unfold scanned. cbn [omap list_omap].
  by destruct (entries !! item.2) as [[?|]|].
Qed.

(** The first loop, exactly, when no registered path is a directory. *)
Lemma scan_loop_exact args configs acc st :
  Forall (λ item, fs st !! item.2 ≠ Some Dir) configs →
  for_each configs (scan_config args (tokens_of args)) acc st
  = (Ok (acc.1 ++ scanned (tokens_of args) (fs st) configs,
         acc.2 ++ concat (config_errors args (fs st) <$> configs.*2)),
     {| fs := fs st; clock := clock st;
        stdout := stdout st
                  ++ concat (config_report (tokens_of args) (fs st) <$> configs) |}).
Proof.
  intros Hread. revert acc st Hread.
  induction configs as [|[label p] configs IH]; intros acc st Hread.
  - cbn. unfold ret. rewrite !app_nil_r, state_eta. by destruct acc.
  - apply Forall_cons in Hread as [Hp Hread]. cbn [for_each].
    erewrite bind_ok by (by apply scan_config_exact).
    rewrite IH by done. cbn [fs clock stdout fst snd].
    rewrite (scanned_cons _ _ (label, p) configs). csimpl.
    by rewrite <- !app_assoc.
Qed.

(** [main] up to the point where it looks at the blocking errors. *)
Lemma main_prefix args st :
  configs_readable (fs st) →
  main args st
  = match blocking_errors_of args (fs st) with
    | _ :: _ =>
        (Ok 2%Z,
         {| fs := fs st; clock := clock_after_target args st;
            stdout := stdout st ++ header_report args st
                      ++ "Cannot continue:"
                         :: ((λ error, "  - " +:+ error)
                               <$> blocking_errors_of args (fs st)) |})
    | [] =>
        if apply args
        then apply_changes args (scanned (tokens_of args) (fs st) CONFIG_PATHS)
               (source_site_dir_of args) (archive_dir_of args)
               (archive_target_of args st) (state_after_report args st)
        else
          (Ok 0%Z,
           {| fs := fs st; clock := clock_after_target args st;
              stdout := stdout st ++ header_report args st
                        ++ ["Dry run complete. Re-run with --apply to make changes."] |})
    end.
Proof.
  intros Hread. unfold main. rewrite !bind_print. cbn [fs clock stdout].
  fold (tokens_of args).
  erewrite bind_ok by (by apply scan_loop_exact).
  cbn [fst snd app fs clock stdout].
  fold (archive_dir_of args).
  rewrite (bind_ok _ _ _ (archive_target_of args st)
             {| fs := fs st; clock := clock_after_target args st;
                stdout := ((((stdout st ++ ["Mode: " +:+ (if apply args then "APPLY" else "DRY RUN")])
                             ++ ["Matching tokens: " +:+ Str.join ", " (tokens_of args)])
                            ++ [""])
                           ++ concat (config_report (tokens_of args) (fs st) <$> CONFIG_PATHS)) |}).
  2:{ rewrite choose_archive_target_run.
      unfold archive_target_of, clock_after_target, base_target_of.
      cbn [fs clock stdout]. by destruct (bool_decide _). }
  rewrite !bind_print. cbn [fs clock stdout].
  erewrite bind_ok by reflexivity. cbn [fs clock stdout].
  fold (source_site_dir_of args).
  set (all_errors := if negb _ then _ else _).
  assert (Hall : all_errors = blocking_errors_of args (fs st)).
  { unfold all_errors, blocking_errors_of, site_errors.
    destruct (fs st !! source_site_dir_of args) as [e0|].
    - rewrite bool_decide_eq_true_2 by eauto. cbn [negb].
      destruct (bool_decide (parent _ = _)); [done | by rewrite app_nil_r].
    - by rewrite bool_decide_eq_false_2 by (by intros [??]). }
  clearbody all_errors. subst all_errors.
  assert (Hout : ((((((stdout st ++ ["Mode: " +:+ (if apply args then "APPLY" else "DRY RUN")])
                      ++ ["Matching tokens: " +:+ Str.join ", " (tokens_of args)])
                     ++ [""])
                    ++ concat (config_report (tokens_of args) (fs st) <$> CONFIG_PATHS))
                   ++ ["Site directory: " +:+ source_site_dir_of args])
                  ++ ["Archive target: " +:+ archive_target_of args st])
                 ++ [""]
                 = stdout st ++ header_report args st).
  { unfold header_report. by rewrite <- !app_assoc. }
  rewrite Hout.
  destruct (blocking_errors_of args (fs st)) as [|e errors].
  - destruct (apply args); cbn [negb].
    + reflexivity.
    + rewrite bind_print. cbn [fs clock stdout]. unfold ret.
      by rewrite <- app_assoc.
  - rewrite bind_print. erewrite bind_ok by apply print_each.
    cbn [fs clock stdout]. unfold ret.
    by rewrite <- !app_assoc.
Qed.

End MainSteps.

(** ** The apply phase *)

Section ApplyPhase.
Context `{PathOps}.

Lemma scanned_ext tokens entries entries' configs :
  (∀ p, p ∈ configs.*2 → entries' !! p = entries !! p) →
  scanned tokens entries' configs = scanned tokens entries configs.
Proof.
  induction configs as [|[label p] configs IH]; intros Hsame; [done|].
  rewrite !(scanned_cons _ _ (label, p) configs). f_equal.
  - unfold scanned. cbn [omap list_omap fst snd].
    by rewrite (Hsame p) by apply list_elem_of_here.
  - apply IH. intros q Hq. by apply Hsame, list_elem_of_further.
Qed.

(** The second loop of [main], run on registered files that are all there
    and whose backup paths, for the clock readings in [T], are free and do
    not collide. *)
Lemma apply_loop_run (T : datetime → Prop) site stamp tokens configs cur :
  NoDup configs.*2 →
  Forall (λ item, ∃ c, fs cur !! item.2 = Some (File c)) configs →
  (∀ n, T (clock cur n)) →
  (∀ p t, p ∈ configs.*2 → T t → fs cur !! bpath p t = None) →
  (∀ p p' t t', p ∈ configs.*2 → p' ∈ configs.*2 → p ≠ p' → T t → T t' →
     bpath p t ≠ bpath p' t') →
  ∃ st', for_each (scanned tokens (fs cur) configs) (apply_config site stamp) tt cur
         = (Ok tt, st') ∧
    (∀ label p c, (label, p) ∈ configs → fs cur !! p = Some (File c) →
       fs st' !! p
       = Some (File (commented_text (active_matches (analysis_of tokens p c))
                       site stamp c)) ∧
       (active_matches (analysis_of tokens p c) ≠ [] →
        ∃ t, T t ∧ fs st' !! bpath p t = Some (File c)) ∧
       (active_matches (analysis_of tokens p c) = [] →
        ∀ t, T t → fs st' !! bpath p t = None)) ∧
    (∀ q, q ∉ configs.*2 →
       (∀ p t, p ∈ configs.*2 → T t → q ≠ bpath p t) →
       fs st' !! q = fs cur !! q) ∧
    (∀ n, T (clock st' n)) ∧
    (∃ out, stdout st' = stdout cur ++ out).
Proof.
  revert cur. induction configs as [|[label p] configs IH];
    intros cur Hnodup Hfiles HT Hfresh Hdistinct.
  - exists cur. split; [done|]. split_and!.
    + by intros ??? ?%elem_of_nil.
    + done.
    + done.
    + exists []. by rewrite app_nil_r.
  - csimpl in Hnodup. apply NoDup_cons in Hnodup as [Hp_rest Hnodup].
    apply Forall_cons in Hfiles as [[c Hp] Hfiles]. cbn [snd] in Hp.
    assert (Hrest_file : ∀ q, q ∈ configs.*2 → ∃ c', fs cur !! q = Some (File c')).
    { intros q ([l q'] & -> & Hin)%list_elem_of_fmap.
      rewrite Forall_forall in Hfiles. apply (Hfiles _ Hin). }
    assert (Hp_in : p ∈ ((label, p) :: configs).*2) by apply list_elem_of_here.
    assert (Hin_rest : ∀ q, q ∈ configs.*2 → q ∈ ((label, p) :: configs).*2).
    { intros q ?. csimpl. by apply list_elem_of_further. }
    assert (Hrest_ne : ∀ q, q ∈ configs.*2 → q ≠ p) by (by intros q ? ->).
    (* a path that holds something is no backup path *)
    assert (Hb_ne : ∀ q q' t, q' ∈ ((label, p) :: configs).*2 → T t →
              is_Some (fs cur !! q) → q ≠ bpath q' t).
    { intros q q' t Hq' Ht [e Hq] ->. by rewrite (Hfresh q' t) in Hq. }
    rewrite (scanned_cons _ _ (label, p) configs).
    unfold scanned at 1. cbn [omap list_omap fst snd]. rewrite Hp. cbn [app].
    cbn [for_each].
    remember (matches_of tokens ActiveMatch (enumerate (TextIO.readlines c) 1))
      as act eqn:Hact.
    set (b0 := bpath p (clock cur 0)).
    assert (Hstep : ∃ cur1,
              apply_config site stamp tt (label, analysis_of tokens p c) cur
              = (Ok tt, cur1) ∧
              fs cur1 = (match act with
                         | [] => fs cur
                         | _ :: _ =>
                             <[p := File (commented_text act site stamp c)]>
                               (<[b0 := File c]> (fs cur))
                         end) ∧
              (∀ n, T (clock cur1 n)) ∧
              ∃ out, stdout cur1 = stdout cur ++ out).
    { unfold apply_config, analysis_of. cbn [snd path active_matches].
      rewrite <- Hact. clear Hact. destruct act as [|m ms].
      - rewrite (bind_ok _ _ _ _ _ (comment_matching_lines_nil p site stamp cur)).
        eexists. split; [reflexivity|]. cbn [fs clock stdout]. split_and!; eauto.
      - erewrite bind_ok.
        2:{ rewrite (comment_matching_lines_cases p m ms site stamp cur), Hp.
            cbv zeta. change (backup_path_of p cur) with b0.
            unfold b0. rewrite (Hfresh p _ Hp_in (HT 0)).
            rewrite (bool_decide_eq_false_2 (None = Some Dir)) by done.
            rewrite (Hfresh p _ Hp_in (HT 0)).
            rewrite (bool_decide_eq_false_2 (is_Some None)) by (by intros [??]).
            cbn [andb]. reflexivity. }
        eexists. split; [reflexivity|]. cbn [fs clock stdout].
        split_and!; eauto. }
    destruct Hstep as (cur1 & Hstep & Hfs1 & HT1 & out1 & Hout1).
    erewrite bind_ok by exact Hstep.
    assert (Hsame1 : ∀ q, q ≠ p → q ≠ b0 → fs cur1 !! q = fs cur !! q).
    { intros q Hqp Hqb. rewrite Hfs1. destruct act; [done|].
      by rewrite !lookup_insert_ne. }
    assert (Hrest_same : ∀ q, q ∈ configs.*2 → fs cur1 !! q = fs cur !! q).
    { intros q Hq. destruct (Hrest_file q Hq) as [c' Hc'].
      apply Hsame1; [by apply Hrest_ne|].
      apply Hb_ne; [done | apply HT | by rewrite Hc']. }
    assert (Hrest_bak : ∀ q t, q ∈ configs.*2 → T t →
              fs cur1 !! bpath q t = fs cur !! bpath q t).
    { intros q t Hq Ht. apply Hsame1.
      - apply not_eq_sym, Hb_ne; [by apply Hin_rest | done | by rewrite Hp].
      - apply Hdistinct; [by apply Hin_rest | done | by apply Hrest_ne | done | apply HT]. }
    rewrite <- (scanned_ext tokens (fs cur) (fs cur1) configs Hrest_same).
    destruct (IH cur1) as (st' & Hrun & Hconfigs & Hframe & HT' & [out Hout]).
    + done.
    + rewrite Forall_forall in Hfiles |- *. intros [l q] Hin.
      destruct (Hfiles _ Hin) as [c' Hc']. exists c'. cbn [snd] in *.
      rewrite Hrest_same; [done|]. apply list_elem_of_fmap. by exists (l, q).
    + done.
    + intros q t Hq Ht. rewrite Hrest_bak by done. by apply Hfresh; [apply Hin_rest|].
    + intros q q' t t' Hq Hq' Hne.
      apply Hdistinct; [by apply Hin_rest | by apply Hin_rest | done].
    + (* the head's paths are outside the rest *)
      assert (Hhead : ∀ q, (q = p ∨ ∃ t, T t ∧ q = bpath p t) →
                fs st' !! q = fs cur1 !! q).
      { intros q Hq. apply Hframe.
        - destruct Hq as [->|(t & Ht & ->)]; [done|].
          intros Hin'. destruct (Hrest_file _ Hin') as [c' Hc'].
          by rewrite (Hfresh p t Hp_in Ht) in Hc'.
        - intros q' t' Hq' Ht'. destruct Hq as [->|(t & Ht & ->)].
          + apply Hb_ne; [by apply Hin_rest | done | by rewrite Hp].
          + apply Hdistinct; [done | by apply Hin_rest | | done..].
            by apply not_eq_sym, Hrest_ne. }
      exists st'. split; [exact Hrun|]. split_and!.
      * intros l q c' [[= -> ->]|Hin]%elem_of_cons Hq.
        -- assert (c' = c) as -> by congruence.
           cbn [analysis_of active_matches]. rewrite <- Hact.
           assert (b0 ≠ p) as Hb0p.
           { apply not_eq_sym, Hb_ne; [done | apply HT | by rewrite Hp]. }
           split_and!.
           ++ rewrite Hhead, Hfs1 by (by left).
              destruct act; [done | by rewrite lookup_insert_eq].
           ++ intros Hne. exists (clock cur 0). split; [apply HT|].
              rewrite Hhead, Hfs1 by (right; exists (clock cur 0); by split).
              destruct act; [done|].
              by rewrite lookup_insert_ne, lookup_insert_eq.
           ++ intros Hnil t Ht.
              rewrite Hhead, Hfs1, Hnil by (right; by exists t).
              by apply Hfresh.
        -- assert (Hq_in : q ∈ configs.*2).
           { apply list_elem_of_fmap. by exists (l, q). }
           apply (Hconfigs l q c' Hin). by rewrite Hrest_same.
      * intros q Hq Hqb. rewrite Hframe.
        -- apply Hsame1.
           ++ intros ->. by apply Hq.
           ++ apply Hqb; [done | apply HT].
        -- intros Hin. by apply Hq, Hin_rest.
        -- intros q' t Hq' Ht. apply Hqb; [by apply Hin_rest | done].
      * done.
      * exists (out1 ++ out). by rewrite Hout, Hout1, app_assoc.
Qed.

End ApplyPhase.

(** ** Moving a directory *)

Section MoveTree.
Context `{PathOps}.

Lemma moved_lookup_None src dst (entries : gmap string entry) q :
  (∀ k e, entries !! k = Some e → strictly_below src k →
     relocate src dst k ≠ q) →
  (list_to_map ((λ item, (relocate src dst item.1, item.2))
                  <$> map_to_list
                        (filter (λ item, strictly_below src item.1) entries))
     : gmap string entry) !! q = None.
Proof.
  intros Hno. apply not_elem_of_list_to_map_1. rewrite <- list_fmap_compose.
  intros ([k e] & Hq & Hin)%list_elem_of_fmap. cbn in Hq.
  apply elem_of_map_to_list, map_lookup_filter_Some in Hin as [Hk Hbelow].
  by apply (Hno k e).
Qed.

Lemma moved_lookup_Some src dst (entries : gmap string entry) k e :
  entries !! k = Some e → strictly_below src k →
  (∀ k' e', entries !! k' = Some e' → strictly_below src k' →
     relocate src dst k' = relocate src dst k → k' = k) →
  (list_to_map ((λ item, (relocate src dst item.1, item.2))
                  <$> map_to_list
                        (filter (λ item, strictly_below src item.1) entries))
     : gmap string entry) !! relocate src dst k = Some e.
Proof.
  intros Hk Hbelow Hinj. apply elem_of_list_to_map_1'.
  - intros e' ([k' e''] & [= Hkey ->] & Hin)%list_elem_of_fmap.
    apply elem_of_map_to_list, map_lookup_filter_Some in Hin as [Hk' Hbelow'].
    cbn [fst snd] in *.
    rewrite (Hinj k' e'' Hk' Hbelow' (eq_sym Hkey)) in Hk'. congruence.
  - apply list_elem_of_fmap. exists (k, e). split; [done|].
    by apply elem_of_map_to_list, map_lookup_filter_Some.
Qed.

Lemma move_tree_dst src dst entries :
  move_tree src dst entries !! dst = Some Dir.
Proof. unfold move_tree. by rewrite lookup_insert_eq. Qed.

(** The source and what was below it are gone. *)
Lemma move_tree_gone src dst entries q :
  q ≠ dst → q = src ∨ strictly_below src q →
  (∀ k e, entries !! k = Some e → strictly_below src k →
     relocate src dst k ≠ q) →
  move_tree src dst entries !! q = None.
Proof.
  intros Hdst Hq Hno. unfold move_tree.
  rewrite lookup_insert_ne by done. apply lookup_union_None. split.
  - by apply moved_lookup_None.
  - destruct (decide (q = src)) as [->|Hsrc]; [by rewrite lookup_delete_eq|].
    rewrite lookup_delete_ne by done.
    apply map_lookup_filter_None. right. intros e _. cbn [fst].
    destruct Hq as [?|?]; [done | tauto].
Qed.

(** What is not at or below the source, and is no path that something
    moves to, stays. *)
Lemma move_tree_kept src dst entries q :
  q ≠ dst → q ≠ src → ¬ strictly_below src q →
  (∀ k e, entries !! k = Some e → strictly_below src k →
     relocate src dst k ≠ q) →
  move_tree src dst entries !! q = entries !! q.
Proof.
  intros Hdst Hsrc Hq Hno. unfold move_tree.
  rewrite lookup_insert_ne by done.
  rewrite lookup_union_r by (by apply moved_lookup_None).
  rewrite lookup_delete_ne by done.
  apply option_eq. intros e. rewrite map_lookup_filter_Some. cbn [fst].
  tauto.
Qed.

(** What was below the source is at its new path. *)
Lemma move_tree_moved src dst entries k e :
  entries !! k = Some e → strictly_below src k →
  relocate src dst k ≠ dst →
  (∀ k' e', entries !! k' = Some e' → strictly_below src k' →
     relocate src dst k' = relocate src dst k → k' = k) →
  move_tree src dst entries !! relocate src dst k = Some e.
Proof.
  intros Hk Hbelow Hdst Hinj. unfold move_tree.
  rewrite lookup_insert_ne by done.
  apply lookup_union_Some_l. by apply moved_lookup_Some.
Qed.

End MoveTree.

Section ApplyRun.
Context `{PathOps}.

Lemma concat_fmap_nil {A B} (f : A → list B) (l : list A) :
  (∀ x, x ∈ l → f x = []) → concat (f <$> l) = [].
Proof.
  induction l as [|x l IH]; intros Hnil; [done|]. csimpl.
  rewrite (Hnil x) by apply list_elem_of_here.
  apply IH. intros y ?. by apply Hnil, list_elem_of_further.
Qed.

Lemma CONFIG_PATHS_NoDup : NoDup CONFIG_PATHS.*2.
Proof. refine (bool_decide_unpack _ _). vm_compute. exact I. Qed.

Lemma apply_ready_unblocked args st :
  apply_ready args st →
  configs_readable (fs st) ∧ blocking_errors_of args (fs st) = [].
Proof.
  intros [Happly Hfiles Hactive Hsrc Hnot _ _ _ _ _ _ _ _ _ _ _].
  split.
  - unfold configs_readable. eapply Forall_impl; [exact Hfiles|].
    intros item [c Hc]. by rewrite Hc.
  - unfold blocking_errors_of.
    rewrite concat_fmap_nil, app_nil_l.
    + unfold site_errors. rewrite Hsrc. by rewrite bool_decide_eq_false_2.
    + intros p ([label q] & -> & Hin)%list_elem_of_fmap. cbn [snd].
      rewrite Forall_forall in Hfiles. destruct (Hfiles _ Hin) as [c Hc].
      cbn [snd] in Hc. unfold config_errors. rewrite Hc, Happly.
      destruct Hactive as [-> | Hactive]; [done|].
      rewrite (bool_decide_eq_false_2 (active_in args c = []));
        [by rewrite andb_false_r | by apply (Hactive label q)].
Qed.

(** X14.  An apply run whose preconditions hold, with the archive directory
    in place and nothing at [<archive_dir>/<site>] or at the backup paths,
    returns exit status 0 after printing [Done.]: every registered file
    holds its lines with the active matches commented out under the date of
    the first clock reading, and is untouched when it had none; every file
    that was changed has a backup with its old text, and no other backup
    appears; the site directory is at [<archive_dir>/<site>] with
    everything that was below it, and nothing is left at or below its old
    path; nothing else has changed. *)
Theorem main_apply_succeeds args st :
  apply_ready args st →
  let source := source_site_dir_of args in
  let target := base_target_of args in
  ∃ st', main args st = (Ok 0%Z, st') ∧
    last (stdout st') = Some "Done." ∧
    fs st' !! source = None ∧
    fs st' !! target = Some Dir ∧
    (∀ k e, fs st !! k = Some e → strictly_below source k →
       fs st' !! k = None ∧ fs st' !! relocate source target k = Some e) ∧
    (∀ label p c, (label, p) ∈ CONFIG_PATHS → fs st !! p = Some (File c) →
       fs st' !! p
       = Some (File (commented_text (active_in args c) (site args)
                       (strftime_date (clock st 0)) c)) ∧
       (active_in args c ≠ [] →
        ∃ n, fs st' !! bpath p (clock st n) = Some (File c)) ∧
       (active_in args c = [] →
        ∀ n, fs st' !! bpath p (clock st n) = None)) ∧
    (∀ q, q ≠ source → q ≠ target → ¬ strictly_below source q →
       q ∉ CONFIG_PATHS.*2 →
       (∀ p n, p ∈ CONFIG_PATHS.*2 → q ≠ bpath p (clock st n)) →
       (∀ k e, fs st !! k = Some e → strictly_below source k →
          q ≠ relocate source target k) →
       fs st' !! q = fs st !! q).
Proof.
  intros Hready source target.
  destruct (apply_ready_unblocked _ _ Hready) as [Hread Herrors].
  destruct Hready as [Happly Hfiles _ Hsrc _ Harch Hparent Hbase Houtside
                      Hcfg_out Hfresh Hdistinct Hbak_out
                      Htree Htree_bak Htree_inj].
  fold source target in Hsrc, Hbase, Houtside, Hcfg_out, Hbak_out, Htree,
    Htree_bak, Htree_inj, Hparent.
  cbv zeta in Htree.
  rewrite (main_prefix _ _ Hread), Herrors, Happly.
  assert (Htarget : archive_target_of args st = target).
  { unfold archive_target_of. fold target.
    by rewrite bool_decide_eq_false_2 by (rewrite Hbase; by intros [??]). }
  assert (Hclock : clock_after_target args st = clock st).
  { unfold clock_after_target. fold target.
    by rewrite bool_decide_eq_false_2 by (rewrite Hbase; by intros [??]). }
  rewrite Htarget. unfold apply_changes, state_after_report. rewrite Hclock.
  fold source.
  erewrite bind_ok by reflexivity. rewrite bind_print. cbn [fs clock stdout].
  set (T := λ t, ∃ n, t = clock st n).
  set (cur := {| fs := fs st; clock := λ n, clock st (S n);
                 stdout := (stdout st ++ header_report args st)
                           ++ ["Applying changes..."] |}).
  destruct (apply_loop_run T (site args) (strftime_date (clock st 0))
              (tokens_of args) CONFIG_PATHS cur)
    as (st2 & Hloop & Hconfigs & Hframe & _ & [out2 Hout2]).
  { apply CONFIG_PATHS_NoDup. }
  { exact Hfiles. }
  { intros n. by exists (S n). }
  { intros p t Hp [n ->]. by apply Hfresh. }
  { intros p p' t t' Hp Hp' Hne [n ->] [n' ->]. by apply Hdistinct. }
  change (fs cur) with (fs st) in *.
  erewrite bind_ok by exact Hloop.
  (* what the loop left alone *)
  assert (Hkept : ∀ q, is_Some (fs st !! q) → q ∉ CONFIG_PATHS.*2 →
            fs st2 !! q = fs st !! q).
  { intros q [e' Hq] Hcfg. apply Hframe; [done|].
    intros p t Hp [n ->] ->. by rewrite (Hfresh p n Hp) in Hq. }
  assert (Hfile_cfg : ∀ q, q ∈ CONFIG_PATHS.*2 → ∃ c, fs st !! q = Some (File c)).
  { intros q ([l q'] & -> & Hin)%list_elem_of_fmap.
    rewrite Forall_forall in Hfiles. apply (Hfiles _ Hin). }
  assert (Hnot_below : ∀ q, relative_to q source = None →
            ¬ strictly_below source q).
  { intros q Hq [_ [r Hr]]. congruence. }
  assert (Hbelow2 : ∀ k, strictly_below source k → fs st2 !! k = fs st !! k).
  { intros k Hk. apply Hframe.
    - intros Hin. by apply (Hnot_below k (Hcfg_out k Hin)).
    - intros p t Hp [n ->] ->.
      by apply (Hnot_below _ (proj2 (Hbak_out p n Hp))). }
  assert (Harch2 : fs st2 !! archive_dir_of args = Some Dir).
  { rewrite Hkept; [done | by rewrite Harch |].
    intros [c Hc]%Hfile_cfg. congruence. }
  assert (Hbase_cfg : target ∉ CONFIG_PATHS.*2).
  { intros [c Hc]%Hfile_cfg. congruence. }
  assert (Hsrc_cfg : source ∉ CONFIG_PATHS.*2).
  { intros [c Hc]%Hfile_cfg. congruence. }
  assert (Hbase2 : fs st2 !! target = None).
  { rewrite Hframe; [done..|].
    intros p t Hp [n ->]. apply not_eq_sym, (Hbak_out p n Hp). }
  assert (Hsrc2 : fs st2 !! source = Some Dir).
  { rewrite Hkept; [done | by rewrite Hsrc | done]. }
  assert (Hmkdir : mkdir_parents (archive_dir_of args) st2 = (Ok tt, st2)).
  { unfold mkdir_parents. unfold_run. by rewrite Harch2. }
  erewrite bind_ok by exact Hmkdir.
  assert (Hmove : move source target st2
                  = (Ok tt, {| fs := move_tree source target (fs st2);
                               clock := clock st2; stdout := stdout st2 |})).
  { unfold move. unfold_run. rewrite Hbase2.
    rewrite (bool_decide_eq_false_2 (None = Some Dir)) by done. cbn [andb].
    rewrite Hsrc2, Houtside, Hbase2.
    rewrite (bool_decide_eq_false_2 (is_Some None)) by (by intros [??]).
    destruct (parents target) as [|q chain]; [done|].
    injection Hparent as ->. cbn [make_missing]. unfold_run.
    by rewrite Harch2. }
  erewrite bind_ok by exact Hmove.
  rewrite !bind_print. cbn [fs clock stdout]. unfold ret.
  eexists. split; [reflexivity|]. cbn [fs stdout].
  assert (Hts : target ≠ source) by congruence.
  (* nothing that moves lands on a path the run names *)
  assert (Hland : ∀ q, (∀ k e, fs st !! k = Some e → strictly_below source k →
                          q ≠ relocate source target k) →
            ∀ k e, fs st2 !! k = Some e → strictly_below source k →
              relocate source target k ≠ q).
  { intros q Hq k e Hk Hbelow. rewrite Hbelow2 in Hk by done.
    apply not_eq_sym. by apply (Hq k e). }
  assert (Hland_used : ∀ q, is_Some (fs st !! q) →
            ∀ k e, fs st !! k = Some e → strictly_below source k →
              q ≠ relocate source target k).
  { intros q [e' Hq] k e Hk Hbelow ->.
    destruct (Htree k e Hk Hbelow) as [Hfree _]. congruence. }
  assert (Hland_bak : ∀ p n, p ∈ CONFIG_PATHS.*2 →
            ∀ k e, fs st !! k = Some e → strictly_below source k →
              bpath p (clock st n) ≠ relocate source target k).
  { intros p n Hp k e Hk Hbelow Heq.
    pose proof (Htree_bak n k e Hk Hbelow) as Hall.
    rewrite Forall_forall in Hall. by apply (Hall p Hp). }
  split_and!.
  - by rewrite last_snoc.
  - apply move_tree_gone; [by apply not_eq_sym | by left |].
    apply Hland, Hland_used. by rewrite Hsrc.
  - apply move_tree_dst.
  - intros k e Hk Hbelow. split.
    + apply move_tree_gone; [|by right|].
      * intros ->. by apply (Hnot_below target).
      * apply Hland. intros k' e' Hk' Hbelow' ->.
        destruct (Htree k' e' Hk' Hbelow') as (_ & _ & Hout).
        by apply (Hnot_below _ Hout).
    + apply move_tree_moved; [by rewrite Hbelow2 | done | |].
      * apply (Htree k e Hk Hbelow).
      * intros k' e' Hk' Hbelow'. rewrite Hbelow2 in Hk' by done.
        by apply (Htree_inj k e Hk Hbelow k' e').
  - intros label p c Hin Hp.
    assert (Hp_cfg : p ∈ CONFIG_PATHS.*2).
    { apply list_elem_of_fmap. by exists (label, p). }
    destruct (Hconfigs label p c Hin Hp) as (Hfile & Hbak & Hnobak).
    assert (Hbak_kept : ∀ n, move_tree source target (fs st2) !! bpath p (clock st n)
                             = fs st2 !! bpath p (clock st n)).
    { intros n. apply move_tree_kept.
      - apply (Hbak_out p n Hp_cfg).
      - intros Heq. rewrite <- Heq in Hsrc. by rewrite Hfresh in Hsrc.
      - apply Hnot_below, (Hbak_out p n Hp_cfg).
      - by apply Hland, Hland_bak. }
    split_and!.
    + rewrite move_tree_kept; [exact Hfile | congruence | congruence | |].
      * by apply Hnot_below, Hcfg_out.
      * apply Hland, Hland_used. by rewrite Hp.
    + intros Hact. destruct (Hbak Hact) as (t & [n ->] & Ht). exists n.
      by rewrite Hbak_kept.
    + intros Hact n. rewrite Hbak_kept. apply (Hnobak Hact). by exists n.
  - intros q Hqs Hqb Hq_below Hcfg Hbak Hq_land.
    rewrite move_tree_kept; [|done..|by apply Hland].
    apply Hframe; [done|]. intros p t Hp [n ->]. by apply Hbak.
Qed.

End ApplyRun.

Lemma CONFIG_PATHS_cases p :
  p ∈ CONFIG_PATHS.*2 →
  p = Sample.vhosts ∨ p = Sample.crontab ∨ p = Sample.exim.
Proof.
  intros ([label q] & -> & Hin)%list_elem_of_fmap. unfold CONFIG_PATHS in Hin.
  repeat (apply elem_of_cons in Hin as [[= -> ->]|Hin]); cbn [snd]; auto.
  by apply elem_of_nil in Hin.
Qed.

Lemma main_apply_succeeds_witness :
  apply_ready (H := Posix.ops) Sample.apply_args Sample.st_ready ∧
  ∃ st', main (H := Posix.ops) Sample.apply_args Sample.st_ready = (Ok 0%Z, st') ∧
    last (stdout st') = Some "Done." ∧
    fs st' !! "/lu/sites/mit" = None ∧
    fs st' !! "/lu/sites/archive/mit" = Some Dir ∧
    fs st' !! "/lu/sites/mit/index.html" = None ∧
    fs st' !! "/lu/sites/archive/mit/index.html" = Some (File Sample.index_html) ∧
    fs st' !! Sample.crontab
    = Some (File ("# deactivated mit 2026-11-03 0 * * * * root /lu/sites/mit/run"
                  +:+ Sample.nl)) ∧
    fs st' !! "/etc/crontab.bak.20261103090507"
    = Some (File Sample.crontab_text) ∧
    fs st' !! "/lu/sites" = Some Dir.
Proof.
  assert (Hready : apply_ready (H := Posix.ops) Sample.apply_args Sample.st_ready).
  { split.
    - reflexivity.
    - unfold CONFIG_PATHS.
      repeat (constructor; [eexists; vm_compute; reflexivity|]). constructor.
    - right. intros label p c Hin Hp. unfold CONFIG_PATHS in Hin.
      repeat (apply elem_of_cons in Hin as [[= -> ->]|Hin]);
        [..|by apply elem_of_nil in Hin];
        vm_compute in Hp; injection Hp as <-; vm_compute; discriminate.
    - vm_compute. reflexivity.
    - vm_compute. discriminate.
    - vm_compute. reflexivity.
    - vm_compute. reflexivity.
    - vm_compute. reflexivity.
    - vm_compute. reflexivity.
    - intros p [->|[->| ->]]%CONFIG_PATHS_cases; vm_compute; reflexivity.
    - intros p n [->|[->| ->]]%CONFIG_PATHS_cases; vm_compute; reflexivity.
    - intros p p' n n' [->|[->| ->]]%CONFIG_PATHS_cases
        [->|[->| ->]]%CONFIG_PATHS_cases Hne;
        first [ contradict Hne; reflexivity | vm_compute; discriminate ].
    - intros p n [->|[->| ->]]%CONFIG_PATHS_cases;
        (split; [vm_compute; discriminate | vm_compute; reflexivity]).
    - cbv zeta. refine (_ : map_Forall _ _).
      refine (bool_decide_unpack _ _). vm_compute. exact I.
    - intros n. refine (_ : map_Forall _ _).
      refine (bool_decide_unpack _ _). vm_compute. exact I.
    - refine (_ : map_Forall (λ k e, _ → map_Forall _ _) _).
      refine (bool_decide_unpack _ _). vm_compute. exact I. }
  split; [exact Hready|].
  destruct (main_apply_succeeds (H := Posix.ops) _ _ Hready)
    as (st' & Hrun & Hlast & Hsrc & Hbase & Htree & Hconfigs & Hframe).
  exists st'.
  split_and!; [exact Hrun | exact Hlast | exact Hsrc | exact Hbase |..].
  - apply (Htree "/lu/sites/mit/index.html" (File Sample.index_html)).
    + vm_compute. reflexivity.
    + split; [vm_compute; discriminate | eexists; vm_compute; reflexivity].
  - apply (Htree "/lu/sites/mit/index.html" (File Sample.index_html)).
    + vm_compute. reflexivity.
    + split; [vm_compute; discriminate | eexists; vm_compute; reflexivity].
  - destruct (Hconfigs "System crontab" Sample.crontab Sample.crontab_text)
      as (Hfile & _ & _).
    { unfold CONFIG_PATHS. apply list_elem_of_further, list_elem_of_here. }
    { vm_compute. reflexivity. }
    rewrite Hfile. vm_compute. reflexivity.
  - destruct (Hconfigs "System crontab" Sample.crontab Sample.crontab_text)
      as (_ & Hbak & _).
    { unfold CONFIG_PATHS. apply list_elem_of_further, list_elem_of_here. }
    { vm_compute. reflexivity. }
    destruct Hbak as [n Hn]; [vm_compute; discriminate|]. exact Hn.
  - rewrite Hframe; [vm_compute; reflexivity | vm_compute; discriminate..| | | |].
    + intros [_ [r Hr]]. vm_compute in Hr. discriminate.
    + intros [Hp|[Hp|Hp]]%CONFIG_PATHS_cases; vm_compute in Hp; discriminate.
    + intros p n [->|[->| ->]]%CONFIG_PATHS_cases; vm_compute; discriminate.
    + refine (_ : map_Forall _ _).
      refine (bool_decide_unpack _ _). vm_compute. exact I.
Defined.

(** ** What a run reports and how it ends *)

Section MainOutcome.
Context `{PathOps}.




(** X12.  The exit status tells whether the run was blocked: a run of
    [main] that returns has returned 2 when some precondition fails and 0
    when none does, in dry-run and in apply mode alike. *)
Theorem main_exit_status args st code st' :
  main args st = (Ok code, st') →
  (code = 2%Z ∧ blocked args (fs st)) ∨ (code = 0%Z ∧ ¬ blocked args (fs st)).
Proof.
  intros Hrun.
  destruct (main_cases args st)
    as [(exn & st1 & Hm & _)
       |[(_ & Herr & st1 & report & Hm & _)
       |[(_ & Herr & _ & st1 & report & Hm & _)|(Hread & Herr & Happly)]]].
  - congruence.
  - left. split; [congruence | by apply blocked_iff_errors].
  - right. split; [congruence|]. rewrite blocked_iff_errors. by intros ?.
  - right. split; [|rewrite blocked_iff_errors; by intros ?].
    rewrite (main_prefix _ _ Hread), Herr, Happly in Hrun.
    unfold apply_changes in Hrun.
    repeat (apply bind_inv_ok in Hrun as (? & ? & _ & Hrun)).
    by injection Hrun.
Qed.


End MainOutcome.


Lemma main_exit_status_witness :
  let run := main (H := Posix.ops) Sample.dry_run_args Sample.st0 in
  run = (Ok 0%Z, run.2) ∧
  ((0 = 2)%Z ∧ blocked (H := Posix.ops) Sample.dry_run_args (fs Sample.st0) ∨
   (0 = 0)%Z ∧ ¬ blocked (H := Posix.ops) Sample.dry_run_args (fs Sample.st0)).
Proof.
  cbv zeta.
  assert (Hrun : main (H := Posix.ops) Sample.dry_run_args Sample.st0
                 = (Ok 0%Z, (main (H := Posix.ops) Sample.dry_run_args Sample.st0).2))
    by (vm_compute; reflexivity).
  split; [exact Hrun|].
  exact (main_exit_status (H := Posix.ops) _ _ _ _ Hrun).
Defined.

